(** * kazoo.handlers.threading: AsyncResult and SequentialThreadingHandler

    A shallow embedding of [kazoo/handlers/threading.py].  Python objects are
    modelled by reference, the handler's three queues as FIFO lists of work
    items, and the closures the code puts on the queues as work items that
    read their captured variable from a store of closure cells at the moment
    they are called, as Python closures do. *)

From Stdlib Require Import Lia.
From stdpp Require Import base option list strings relations.

(** ** Python objects *)

(** Objects are identified by reference.  [None] and the module-level
    sentinel [_NONE = object()] are distinguished objects; [PyObj id] is an
    object of a class without [__eq__] (payloads, exceptions, functions,
    lambdas, the future itself); [PyMethod id im_self im_func] is a bound
    method object: every attribute access [obj.f] makes a new one ([id]), for
    the function [im_func] bound to the object [im_self]. *)
Inductive pyobj : Type :=
| PyNone
| _NONE
| PyObj (id : nat)
| PyMethod (id : nat) (im_self : nat) (im_func : nat).

#[global] Instance pyobj_eq_dec : EqDecision pyobj.
Proof. solve_decision. Defined.

(** [a is b] *)
Definition py_is (a b : pyobj) : bool := bool_decide (a = b).

(** [a == b]: identity for objects without [__eq__]; two bound method objects
    are equal when they bind the same function to the same object, whether or
    not they are the same object. *)
Definition py_eq (a b : pyobj) : bool :=
  py_is a b
  || match a, b with
     | PyMethod _ s f, PyMethod _ s' f' =>
         bool_decide (s = s') && bool_decide (f = f')
     | _, _ => false
     end.

(** [x in l]: some element [e] of the list has [e is x or e == x]. *)
Definition py_in (x : pyobj) (l : list pyobj) : bool :=
  existsb (fun e => py_is e x || py_eq e x) l.

(** [l.remove(x)]: drops the first element [e] with [e == x] (the code calls
    it only after [x in l] has answered true). *)
Fixpoint py_remove (x : pyobj) (l : list pyobj) : list pyobj :=
  match l with
  | [] => []
  | e :: l' => if py_eq e x then l' else e :: py_remove x l'
  end.

(** No two elements of the list are [==]. *)
Fixpoint py_distinct (l : list pyobj) : bool :=
  match l with
  | [] => true
  | e :: l' => negb (py_in e l') && py_distinct l'
  end.

(** The callback descriptor handed to [dispatch_callback]: an object with the
    attributes [type], [func] and [args]. *)
Record Callback : Type := mkCallback {
  type : string;
  func : pyobj;
  args : list pyobj
}.

(** ** Work items and closures *)

(** What the code puts on a queue: the sentinel [_STOP = object()], or one of
    the two lambdas of the module.
    - [CompletionThunk c self] is [lambda: callback(self)], where the free
      variable [callback] lives in closure cell [c];
    - [DispatchThunk cb] is [lambda: callback.func( *callback.args)]. *)
Inductive work : Type :=
| _STOP
| CompletionThunk (cell : nat) (self : pyobj)
| DispatchThunk (callback : Callback).

(** A call performed by a worker thread: [f( *a)]. *)
Inductive invocation : Type :=
| Call (f : pyobj) (a : list pyobj).

#[global] Instance invocation_eq_dec : EqDecision invocation.
Proof. solve_decision. Defined.

(** ** State *)

Inductive lane : Type := CompletionLane | CallbackLane | SessionLane.

#[global] Instance lane_eq_dec : EqDecision lane.
Proof. solve_decision. Defined.

(** A worker thread made by [_create_thread_worker(queue)]. *)
Record Thread : Type := mkThread {
  tid : nat;
  target : lane;
  alive : bool
}.

Record AsyncResult : Type := mkAsyncResult {
  this : pyobj;              (* the reference [self] *)
  value : pyobj;
  _exception : pyobj;
  _callbacks : list pyobj
}.

Record SequentialThreadingHandler : Type := mkHandler {
  callback_queue : list work;
  session_queue : list work;
  completion_queue : list work;
  _running : bool;
  _workers : list Thread
}.

(** One future, the handler it was created with ([self._handler]), the closure
    cells bound so far, and three histories: the calls the workers have made,
    the threads joined (by [tid], in order), and the number of threads
    created. *)
Record World : Type := mkWorld {
  future : AsyncResult;
  handler : SequentialThreadingHandler;
  cells : list pyobj;
  calls : list invocation;
  joined : list nat;
  spawned : nat
}.

(** [AsyncResult.__init__] *)
Definition AsyncResult_init (self : pyobj) : AsyncResult :=
  {| this := self; value := PyNone; _exception := _NONE; _callbacks := [] |}.

(** [SequentialThreadingHandler.__init__] *)
Definition Handler_init : SequentialThreadingHandler :=
  {| callback_queue := []; session_queue := []; completion_queue := [];
     _running := false; _workers := [] |}.

Definition World_init (self : pyobj) : World :=
  {| future := AsyncResult_init self; handler := Handler_init;
     cells := []; calls := []; joined := []; spawned := 0 |}.

Definition with_future (f : AsyncResult) (w : World) : World :=
  {| future := f; handler := handler w; cells := cells w;
     calls := calls w; joined := joined w; spawned := spawned w |}.

Definition with_handler (h : SequentialThreadingHandler) (w : World) : World :=
  {| future := future w; handler := h; cells := cells w;
     calls := calls w; joined := joined w; spawned := spawned w |}.

Definition with_cells (cs : list pyobj) (w : World) : World :=
  {| future := future w; handler := handler w; cells := cs;
     calls := calls w; joined := joined w; spawned := spawned w |}.

(** [queue.put(item)] on an unbounded [Queue.Queue()]. *)
Definition put (l : lane) (item : work) (h : SequentialThreadingHandler)
  : SequentialThreadingHandler :=
  match l with
  | CompletionLane =>
      {| callback_queue := callback_queue h; session_queue := session_queue h;
         completion_queue := completion_queue h ++ [item];
         _running := _running h; _workers := _workers h |}
  | CallbackLane =>
      {| callback_queue := callback_queue h ++ [item]; session_queue := session_queue h;
         completion_queue := completion_queue h;
         _running := _running h; _workers := _workers h |}
  | SessionLane =>
      {| callback_queue := callback_queue h; session_queue := session_queue h ++ [item];
         completion_queue := completion_queue h;
         _running := _running h; _workers := _workers h |}
  end.

Definition queue_of (l : lane) (h : SequentialThreadingHandler) : list work :=
  match l with
  | CompletionLane => completion_queue h
  | CallbackLane => callback_queue h
  | SessionLane => session_queue h
  end.

(** Assignment to the variable held in cell [c].  A cell enters the store the
    first time it is bound; later assignments overwrite it in place, which
    every closure over [c] observes. *)
Definition bind_cell (c : nat) (v : pyobj) (cs : list pyobj) : list pyobj :=
  if decide (c < length cs) then <[c:=v]> cs else cs ++ [v].

(** ** AsyncResult *)

Definition ready (f : AsyncResult) : bool :=
  negb (py_is (_exception f) _NONE).

Definition successful (f : AsyncResult) : bool :=
  py_is (_exception f) PyNone.

(** The [exception] property; a Python function that falls off its end
    returns [None]. *)
Definition exception (f : AsyncResult) : pyobj :=
  if negb (py_is (_exception f) _NONE) then _exception f else PyNone.

(** One iteration of [for callback in self._callbacks: put(lambda: callback(self))]
    in a frame whose variable [callback] is cell [c]. *)
Definition link_step (c : nat) (w : World) (callback : pyobj) : World :=
  let w1 := with_cells (bind_cell c callback (cells w)) w in
  with_handler (put CompletionLane (CompletionThunk c (this (future w1))) (handler w1)) w1.

(** The loop of [set] and [set_exception], run in one frame: every lambda it
    creates closes over the same variable [callback]. *)
Definition link_all (w : World) : World :=
  foldl (link_step (length (cells w))) w (_callbacks (future w)).

Definition set (v : pyobj) (w : World) : World :=
  let f := future w in
  link_all (with_future {| this := this f; value := v; _exception := PyNone;
                           _callbacks := _callbacks f |} w).

Definition set_exception (e : pyobj) (w : World) : World :=
  let f := future w in
  link_all (with_future {| this := this f; value := value f; _exception := e;
                           _callbacks := _callbacks f |} w).

Definition rawlink (callback : pyobj) (w : World) : World :=
  let f := future w in
  if ready f then
    let c := length (cells w) in
    let w1 := with_cells (bind_cell c callback (cells w)) w in
    with_handler (put CompletionLane (CompletionThunk c (this f)) (handler w1)) w1
  else if negb (py_in callback (_callbacks f)) then
    with_future {| this := this f; value := value f; _exception := _exception f;
                   _callbacks := _callbacks f ++ [callback] |} w
  else w.

Definition unlink (callback : pyobj) (w : World) : World :=
  let f := future w in
  if ready f then w
  else if py_in callback (_callbacks f) then
    with_future {| this := this f; value := value f; _exception := _exception f;
                   _callbacks := py_remove callback (_callbacks f) |} w
  else w.

(** ** The condition variable

    [self._condition.wait(timeout)] releases the lock and suspends the caller
    until another thread calls [notify_all] (which only [set] and
    [set_exception] do) or until [timeout] has elapsed; with [timeout=None]
    only a notification ends it.  What the other threads do in the meantime is
    the environment of the call: a sequence of clock ticks and of operations
    other threads perform on the future while the caller is suspended.  Time
    is counted in ticks. *)
Inductive op : Type :=
| OpSet (v : pyobj)
| OpSetException (e : pyobj)
| OpRawlink (callback : pyobj)
| OpUnlink (callback : pyobj).

Inductive event : Type :=
| Tick
| Other (o : op).

Definition apply_op (o : op) (w : World) : World :=
  match o with
  | OpSet v => set v w
  | OpSetException e => set_exception e w
  | OpRawlink cb => rawlink cb w
  | OpUnlink cb => unlink cb w
  end.

Definition notifies (o : op) : bool :=
  match o with
  | OpSet _ | OpSetException _ => true
  | OpRawlink _ | OpUnlink _ => false
  end.

Definition expired (timeout : option nat) (elapsed : nat) : bool :=
  match timeout with
  | Some t => bool_decide (t <= elapsed)
  | None => false
  end.

(** The result is the world when the caller resumes and the ticks it spent
    suspended; [None] when the caller is never resumed.  An exhausted
    environment means that no other thread ever touches the future again. *)
Fixpoint cond_wait (timeout : option nat) (env : list event) (elapsed : nat)
    (w : World) : option (World * nat) :=
  if expired timeout elapsed then Some (w, elapsed)
  else match env with
       | [] => match timeout with
               | Some t => Some (w, t)
               | None => None
               end
       | Tick :: env' => cond_wait timeout env' (S elapsed) w
       | Other o :: env' =>
           if notifies o then Some (apply_op o w, elapsed)
           else cond_wait timeout env' elapsed (apply_op o w)
       end.

(** How a call ends.  [Raise e] is the statement [raise e] executed on the
    stored object [e]; [RaiseTimeoutError] is [raise TimeoutError()], a new
    instance of the module's own exception class. *)
Inductive outcome : Type :=
| Return (v : pyobj)
| Raise (e : pyobj)
| RaiseTimeoutError.

(** [if self._exception is None: return self.value] / [raise self._exception] *)
Definition deliver (f : AsyncResult) : outcome :=
  if py_is (_exception f) PyNone then Return (value f) else Raise (_exception f).

Definition get (block : bool) (timeout : option nat) (env : list event)
    (w : World) : option (outcome * World) :=
  if negb (py_is (_exception (future w)) _NONE) then
    Some (deliver (future w), w)
  else if block then
    match cond_wait timeout env 0 w with
    | Some (w', _) =>
        if negb (py_is (_exception (future w')) _NONE) then
          Some (deliver (future w'), w')
        else Some (RaiseTimeoutError, w')
    | None => None
    end
  else Some (RaiseTimeoutError, w).

Definition get_nowait (env : list event) (w : World) : option (outcome * World) :=
  get false None env w.

(** [wait] returns the flag, the world at that moment and the ticks spent. *)
Definition wait (timeout : option nat) (env : list event) (w : World)
  : option (bool * World * nat) :=
  match cond_wait timeout env 0 w with
  | Some (w', elapsed) => Some (negb (py_is (_exception (future w')) _NONE), w', elapsed)
  | None => None
  end.

(** ** SequentialThreadingHandler *)

Definition set_running (b : bool) (h : SequentialThreadingHandler)
  : SequentialThreadingHandler :=
  {| callback_queue := callback_queue h; session_queue := session_queue h;
     completion_queue := completion_queue h;
     _running := b; _workers := _workers h |}.

Definition set_workers (ws : list Thread) (h : SequentialThreadingHandler)
  : SequentialThreadingHandler :=
  {| callback_queue := callback_queue h; session_queue := session_queue h;
     completion_queue := completion_queue h;
     _running := _running h; _workers := ws |}.

(** The queue object bound to lane [l] now holds [q]. *)
Definition set_queue (l : lane) (q : list work) (h : SequentialThreadingHandler)
  : SequentialThreadingHandler :=
  match l with
  | CompletionLane =>
      {| callback_queue := callback_queue h; session_queue := session_queue h;
         completion_queue := q; _running := _running h; _workers := _workers h |}
  | CallbackLane =>
      {| callback_queue := q; session_queue := session_queue h;
         completion_queue := completion_queue h;
         _running := _running h; _workers := _workers h |}
  | SessionLane =>
      {| callback_queue := callback_queue h; session_queue := q;
         completion_queue := completion_queue h;
         _running := _running h; _workers := _workers h |}
  end.

(** The three queues in the order both [start] and [stop] walk them:
    [(self.completion_queue, self.callback_queue, self.session_queue)]. *)
Definition lanes : list lane := [CompletionLane; CallbackLane; SessionLane].

(** [dispatch_callback]: the string comparison picks the queue. *)
Definition dispatch_callback (callback : Callback) (w : World) : World :=
  if bool_decide (type callback = "session") then
    with_handler (put SessionLane (DispatchThunk callback) (handler w)) w
  else
    with_handler (put CallbackLane (DispatchThunk callback) (handler w)) w.

(** Calling a work item [func()]: the lambda reads its free variable when it
    runs.  A cell that was never bound would be a [NameError]. *)
Definition call_of (cs : list pyobj) (item : work) : option invocation :=
  match item with
  | _STOP => None
  | CompletionThunk c self => (fun callback => Call callback [self]) <$> cs !! c
  | DispatchThunk callback => Some (Call (func callback) (args callback))
  end.

(** How [thread_worker] leaves its loop: it is suspended in [queue.get()] on
    an empty queue, it met [_STOP] and broke out, or an exception escaped
    [func()] and ended the thread. *)
Inductive worker_exit : Type := Blocked | Stopped | Died.

Section Workers.

(** What the called code does is not part of this module; all the worker
    loop can see of a call is whether an exception escapes it (other than
    [Queue.Empty], which the loop catches before it goes on). *)
Variable raises : invocation -> bool.

(** The loop of [thread_worker] over the items its queue holds: the exit,
    what is left on the queue, and the calls made. *)
Fixpoint thread_worker (cs : list pyobj) (queue : list work)
    (log : list invocation) : worker_exit * list work * list invocation :=
  match queue with
  | [] => (Blocked, [], log)
  | _STOP :: rest => (Stopped, rest, log)
  | item :: rest =>
      match call_of cs item with
      | Some c =>
          if raises c then (Died, rest, log ++ [c])
          else thread_worker cs rest (log ++ [c])
      | None => (Died, rest, log)
      end
  end.

(** [worker.join()]: returns once the thread has ended, which for a live
    worker means after it has run its queue up to [_STOP] (or died on the
    way); it never returns when the worker stays suspended on its queue. *)
Definition join (t : Thread) (w : World) : option World :=
  let w1 := {| future := future w; handler := handler w; cells := cells w;
               calls := calls w; joined := joined w ++ [tid t];
               spawned := spawned w |} in
  if alive t then
    match thread_worker (cells w) (queue_of (target t) (handler w)) (calls w) with
    | (Blocked, _, _) => None
    | (_, rest, log) =>
        Some {| future := future w1;
                handler := set_queue (target t) rest (handler w1);
                cells := cells w1; calls := log; joined := joined w1;
                spawned := spawned w1 |}
    end
  else Some w1.

(** The live worker of lane [l] gets to run until it leaves its loop (what
    a worker does on its own whenever it is scheduled). *)
Definition run_lane (l : lane) (w : World) : World :=
  let h := handler w in
  if existsb (fun t => alive t && bool_decide (target t = l)) (_workers h) then
    match thread_worker (cells w) (queue_of l h) (calls w) with
    | (e, rest, log) =>
        let ws := match e with
                  | Blocked => _workers h
                  | _ => map (fun t => if bool_decide (target t = l)
                                       then {| tid := tid t; target := target t;
                                               alive := false |}
                                       else t) (_workers h)
                  end in
        {| future := future w;
           handler := set_workers ws (set_queue l rest h);
           cells := cells w; calls := log; joined := joined w;
           spawned := spawned w |}
    end
  else w.

(** [_create_thread_worker(queue)] followed by [self._workers.append(w)] *)
Definition _create_thread_worker (w : World) (queue : lane) : World :=
  let t := {| tid := spawned w; target := queue; alive := true |} in
  {| future := future w;
     handler := set_workers (_workers (handler w) ++ [t]) (handler w);
     cells := cells w; calls := calls w; joined := joined w;
     spawned := S (spawned w) |}.

Definition start (w : World) : World :=
  if _running (handler w) then w
  else
    let w1 := foldl _create_thread_worker w lanes in
    with_handler (set_running true (handler w1)) w1.

(** [list.pop()]: the last element and the list without it. *)
Definition pop {A : Type} (l : list A) : option (A * list A) :=
  match reverse l with
  | [] => None
  | x :: r => Some (x, reverse r)
  end.

(** [while self._workers: worker = self._workers.pop(); worker.join()];
    every turn shortens the list, so its length bounds the turns. *)
Fixpoint join_loop (turns : nat) (w : World) : option World :=
  match pop (_workers (handler w)) with
  | None => Some w
  | Some (worker, rest) =>
      match turns with
      | 0 => None
      | S turns' =>
          match join worker (with_handler (set_workers rest (handler w)) w) with
          | Some w' => join_loop turns' w'
          | None => None
          end
      end
  end.

(** The first half of [stop]: the flag and the three [queue.put(_STOP)]. *)
Definition stop_signal (w : World) : World :=
  let h1 := set_running false (handler w) in
  with_handler (foldl (fun h q => put q _STOP h) h1 lanes) w.

(** Items that other threads put on the queues while [stop] is joining
    (neither [dispatch_callback] nor the futures take [_state_change]). *)
Definition enqueue_late (late : lane -> list work) (w : World) : World :=
  with_handler
    (foldl (fun h q => set_queue q (queue_of q h ++ late q) h) (handler w) lanes) w.

(** [self._workers.reverse()] and the joining loop. *)
Definition stop_join (w : World) : option World :=
  let ws := reverse (_workers (handler w)) in
  join_loop (length ws) (with_handler (set_workers ws (handler w)) w).

(** The three fresh [Queue.Queue()]. *)
Definition stop_clear (w : World) : World :=
  with_handler
    (set_queue CompletionLane []
       (set_queue SessionLane [] (set_queue CallbackLane [] (handler w)))) w.

Definition stop (late : lane -> list work) (w : World) : option World :=
  if negb (_running (handler w)) then Some w
  else
    match stop_join (enqueue_late late (stop_signal w)) with
    | Some w' => Some (stop_clear w')
    | None => None
    end.

End Workers.

(** The calls in the log once worker [t] has been joined, when its queue held
    [q] in front of the stop marker: a live worker runs [q] up to the marker,
    a dead one runs nothing. *)
Definition drain (raises : invocation -> bool) (cs : list pyobj) (t : Thread)
    (q : list work) (log : list invocation) : list invocation :=
  if alive t then (thread_worker raises cs (q ++ [_STOP]) log).2 else log.

(** ** Histories and environments *)

(** The future after a sequence of operations, whichever threads made them. *)
Definition run_ops (ops : list op) (w : World) : World :=
  foldl (fun w o => apply_op o w) w ops.

(** An environment in which no other thread resolves the future. *)
Definition quiet (env : list event) : bool :=
  forallb (fun e => match e with
                    | Tick => true
                    | Other o => negb (notifies o)
                    end) env.

(** ** Reachable worlds *)

(** Everything that can happen to a world: an operation on the future, a
    dispatch, [start], a [stop] that returns, and a worker getting to run. *)
Inductive step (raises : invocation -> bool) : World -> World -> Prop :=
| step_op (o : op) (w : World) :
    step raises w (apply_op o w)
| step_dispatch (callback : Callback) (w : World) :
    step raises w (dispatch_callback callback w)
| step_start (w : World) :
    step raises w (start w)
| step_stop (late : lane -> list work) (w w' : World) :
    stop raises late w = Some w' -> step raises w w'
| step_run (l : lane) (w : World) :
    step raises w (run_lane raises l w).

Inductive reachable (raises : invocation -> bool) (self : pyobj) : World -> Prop :=
| reachable_init : reachable raises self (World_init self)
| reachable_step (w w' : World) :
    reachable raises self w -> step raises w w' -> reachable raises self w'.

(** The workers of a handler: none while it is stopped; while it runs, the
    three threads of the last [start], listed in the order of their creation
    (consecutive thread numbers) on the completion, callback and session
    queues. *)
Definition workers_of_start (w : World) : Prop :=
  if _running (handler w) then
    exists n, map (fun t => (tid t, target t)) (_workers (handler w))
              = [(n, CompletionLane); (S n, CallbackLane); (S (S n), SessionLane)]
  else _workers (handler w) = [].

(** ** Runs of the handler *)

(** A producer dispatching a sequence of callbacks, one after the other. *)
Definition dispatch_all (callbacks : list Callback) (w : World) : World :=
  foldl (fun w callback => dispatch_callback callback w) w callbacks.

Definition is_session (callback : Callback) : bool :=
  bool_decide (type callback = "session").

(** The calls that the items of [q] make when each is called with the cells
    [cs]. *)
Definition calls_of (cs : list pyobj) (q : list work) : list invocation :=
  omap (call_of cs) q.

(** Every item of [q] is a lambda whose variable is bound and whose call
    returns. *)
Definition runnable (raises : invocation -> bool) (cs : list pyobj)
    (q : list work) : bool :=
  forallb (fun item => match call_of cs item with
                       | Some c => negb (raises c)
                       | None => false
                       end) q.

(** The variable of a queued lambda is bound in [cs]. *)
Definition bound_in (cs : list pyobj) (item : work) : Prop :=
  match item with
  | CompletionThunk c _ => c < length cs
  | _ => True
  end.

(** The queue [dispatch_callback] picks for a callback. *)
Definition lane_of (callback : Callback) : lane :=
  if is_session callback then SessionLane else CallbackLane.

(** The call that a dispatched callback stands for. *)
Definition dispatched_call (callback : Callback) : invocation :=
  Call (func callback) (args callback).

(** * Properties *)

(** ** Identity tests and membership *)

Lemma py_is_true (a b : pyobj) : py_is a b = true <-> a = b.
Proof. unfold py_is. apply bool_decide_eq_true. Qed.

Lemma py_is_false (a b : pyobj) : py_is a b = false <-> a <> b.
Proof. unfold py_is. apply bool_decide_eq_false. Qed.

Lemma py_eq_spec (a b : pyobj) :
  py_eq a b = true <->
  a = b \/ match a, b with
           | PyMethod _ s f, PyMethod _ s' f' => s = s' /\ f = f'
           | _, _ => False
           end.
Proof.
  unfold py_eq. rewrite orb_true_iff, py_is_true.
  destruct a, b; simpl; try (split; intros [?|?]; by auto).
  rewrite andb_true_iff, !bool_decide_eq_true. tauto.
Qed.

Lemma py_eq_refl (a : pyobj) : py_eq a a = true.
Proof. apply py_eq_spec. by left. Qed.

Lemma py_eq_sym (a b : pyobj) : py_eq a b = true -> py_eq b a = true.
Proof.
  rewrite !py_eq_spec. intros [->|H]; [by left|].
  right. destruct a, b; try done. by destruct H.
Qed.

Lemma py_eq_trans (a b c : pyobj) :
  py_eq a b = true -> py_eq b c = true -> py_eq a c = true.
Proof.
  rewrite !py_eq_spec. intros [->|H1] [->|H2]; auto.
  right. destruct a, b, c; try done. destruct H1, H2. split; congruence.
Qed.

(** [x in l] answers true exactly when the list holds an element equal to
    [x], which the same object always is. *)
Lemma py_in_true (x : pyobj) (l : list pyobj) :
  py_in x l = true <-> exists e, e ∈ l /\ py_eq e x = true.
Proof.
  unfold py_in. induction l as [|e l IH]; simpl.
  - split; [discriminate | intros (e & He & _); inversion He].
  - rewrite orb_true_iff, IH. split.
    + intros [H|(e' & He' & H)].
      * exists e. split; [apply elem_of_cons; by left|].
        apply orb_true_iff in H as [H|H]; [|done].
        apply py_is_true in H. subst. apply py_eq_refl.
      * exists e'. split; [apply elem_of_cons; by right | done].
    + intros (e' & He' & H). apply elem_of_cons in He' as [->|He'].
      * left. rewrite H. apply orb_true_r.
      * right. by exists e'.
Qed.

Lemma py_in_false (x : pyobj) (l : list pyobj) :
  py_in x l = false <-> forall e, e ∈ l -> py_eq e x = false.
Proof.
  split.
  - intros Hn e He. destruct (py_eq e x) eqn:E; [|done].
    assert (py_in x l = true) by (apply py_in_true; eauto). congruence.
  - intros H. destruct (py_in x l) eqn:E; [|done].
    apply py_in_true in E as (e & He & Heq). rewrite (H e He) in Heq. done.
Qed.

Lemma elem_of_py_in (x : pyobj) (l : list pyobj) : x ∈ l -> py_in x l = true.
Proof.
  intros H. apply py_in_true. exists x. split; [done | apply py_eq_refl].
Qed.

Lemma ready_pending (f : AsyncResult) : ready f = false <-> _exception f = _NONE.
Proof. unfold ready. rewrite negb_false_iff. apply py_is_true. Qed.

Lemma ready_resolved (f : AsyncResult) : ready f = true <-> _exception f <> _NONE.
Proof. unfold ready. rewrite negb_true_iff. apply py_is_false. Qed.

(** ** The loop over the registered callbacks *)

Lemma bind_cell_fresh (v : pyobj) (cs : list pyobj) :
  bind_cell (length cs) v cs = cs ++ [v].
Proof. unfold bind_cell. case_decide; [lia | reflexivity]. Qed.

Lemma bind_cell_again (u v : pyobj) (cs : list pyobj) :
  bind_cell (length cs) v (cs ++ [u]) = cs ++ [v].
Proof.
  unfold bind_cell. rewrite length_app. simpl. case_decide; [|lia].
  rewrite insert_app_r_alt by lia. rewrite Nat.sub_diag. reflexivity.
Qed.

Lemma last_cons_default {A : Type} (u x : A) (l : list A) :
  default u (last (x :: l)) = default x (last l).
Proof.
  destruct l as [|y l]; [reflexivity|].
  rewrite last_cons. destruct (last (y :: l)); reflexivity.
Qed.

(** Within one run of the loop the cell is rebound at every turn: once the
    loop is over, it holds the callback of the last turn. *)
Lemma link_loop_rebinds (cs : list pyobj) (cbs : list pyobj) :
  forall (u : pyobj) (w : World),
    cells w = cs ++ [u] ->
    let w' := foldl (link_step (length cs)) w cbs in
    future w' = future w
    /\ cells w' = cs ++ [default u (last cbs)]
    /\ completion_queue (handler w') =
         completion_queue (handler w)
           ++ replicate (length cbs) (CompletionThunk (length cs) (this (future w)))
    /\ callback_queue (handler w') = callback_queue (handler w)
    /\ session_queue (handler w') = session_queue (handler w)
    /\ _running (handler w') = _running (handler w)
    /\ _workers (handler w') = _workers (handler w)
    /\ calls w' = calls w /\ joined w' = joined w /\ spawned w' = spawned w.
Proof.
  induction cbs as [|cb cbs IH]; intros u w Hcs; simpl.
  - rewrite app_nil_r. tauto.
  - specialize (IH cb (link_step (length cs) w cb)).
    destruct IH as (Hf & Hc & Hq & Hcb & Hs & Hr & Hw & Hcalls & Hj & Hsp).
    { unfold link_step; simpl. rewrite Hcs. apply bind_cell_again. }
    rewrite last_cons_default.
    split; [exact Hf|]. split; [exact Hc|].
    split; [rewrite Hq; unfold link_step; simpl; rewrite <- app_assoc; reflexivity|].
    repeat split; assumption.
Qed.

(** [link_all] as a whole: one thunk per registered callback, all of them
    closed over the one cell, which ends up holding the last callback. *)
Lemma link_all_spec (w : World) :
  let w' := link_all w in
  let c := length (cells w) in
  future w' = future w
  /\ cells w' = match last (_callbacks (future w)) with
                | Some cb => cells w ++ [cb]
                | None => cells w
                end
  /\ completion_queue (handler w') =
       completion_queue (handler w)
         ++ replicate (length (_callbacks (future w)))
                      (CompletionThunk c (this (future w)))
  /\ callback_queue (handler w') = callback_queue (handler w)
  /\ session_queue (handler w') = session_queue (handler w)
  /\ _running (handler w') = _running (handler w)
  /\ _workers (handler w') = _workers (handler w)
  /\ calls w' = calls w /\ joined w' = joined w /\ spawned w' = spawned w.
Proof.
  unfold link_all. destruct (_callbacks (future w)) as [|cb cbs] eqn:E.
  - simpl. rewrite app_nil_r. tauto.
  - cbn [foldl].
    pose proof (link_loop_rebinds (cells w) cbs cb (link_step (length (cells w)) w cb)) as H.
    destruct H as (Hf & Hc & Hq & Hcb & Hs & Hr & Hw & Hcalls & Hj & Hsp).
    { unfold link_step; simpl. apply bind_cell_fresh. }
    cbv zeta.
    split; [exact Hf|].
    split; [rewrite Hc, last_cons; destruct (last cbs); reflexivity|].
    split; [rewrite Hq; unfold link_step; simpl; rewrite <- app_assoc; reflexivity|].
    repeat split; assumption.
Qed.

Lemma link_all_future (w : World) : future (link_all w) = future w.
Proof. apply (link_all_spec w). Qed.

Lemma set_future (v : pyobj) (w : World) :
  future (set v w) =
    {| this := this (future w); value := v; _exception := PyNone;
       _callbacks := _callbacks (future w) |}.
Proof. unfold set. rewrite link_all_future. reflexivity. Qed.

Lemma set_exception_future (e : pyobj) (w : World) :
  future (set_exception e w) =
    {| this := this (future w); value := value (future w); _exception := e;
       _callbacks := _callbacks (future w) |}.
Proof. unfold set_exception. rewrite link_all_future. reflexivity. Qed.

Lemma rawlink_outcome (callback : pyobj) (w : World) :
  value (future (rawlink callback w)) = value (future w)
  /\ _exception (future (rawlink callback w)) = _exception (future w).
Proof.
  unfold rawlink. destruct (ready (future w)); [split; reflexivity|].
  destruct (py_in callback _); split; reflexivity.
Qed.

Lemma unlink_outcome (callback : pyobj) (w : World) :
  value (future (unlink callback w)) = value (future w)
  /\ _exception (future (unlink callback w)) = _exception (future w).
Proof.
  unfold unlink. destruct (ready (future w)); [split; reflexivity|].
  destruct (py_in callback _); split; reflexivity.
Qed.

(** ** Waiting on the condition *)

Lemma cond_wait_timeout (t : nat) (env : list event) :
  forall (elapsed : nat) (w : World), is_Some (cond_wait (Some t) env elapsed w).
Proof.
  induction env as [|e env IH]; intros elapsed w; simpl.
  - destruct (bool_decide (t <= elapsed)); eauto.
  - destruct (bool_decide (t <= elapsed)); [eauto|].
    destruct e as [|o]; [apply IH|].
    destruct (notifies o); [eauto | apply IH].
Qed.

(** With nobody to notify, the wait lasts its whole timeout, and for ever
    when there is none; the state of the future plays no part in it. *)
Lemma cond_wait_ticks (n : nat) :
  forall (elapsed : nat) (w : World),
    cond_wait None (replicate n Tick) elapsed w = None
    /\ forall t, cond_wait (Some t) (replicate n Tick) elapsed w = Some (w, max elapsed t).
Proof.
  induction n as [|n IH]; intros elapsed w; simpl.
  - split; [reflexivity|]. intros t. case_bool_decide; f_equal; f_equal; lia.
  - split; [apply IH|]. intros t. case_bool_decide.
    + f_equal; f_equal; lia.
    + destruct (IH (S elapsed) w) as [_ ->]. f_equal; f_equal; lia.
Qed.

Lemma cond_wait_quiet (timeout : option nat) (env : list event) :
  forall (elapsed : nat) (w w' : World) (t : nat),
    quiet env = true ->
    cond_wait timeout env elapsed w = Some (w', t) ->
    value (future w') = value (future w)
    /\ _exception (future w') = _exception (future w).
Proof.
  induction env as [|e env IH]; intros elapsed w w' t Hq H; simpl in *.
  - destruct (expired timeout elapsed); [by inversion H|].
    destruct timeout; by inversion H.
  - apply andb_true_iff in Hq as [He Hq].
    destruct (expired timeout elapsed); [by inversion H|].
    destruct e as [|o]; [by eapply IH|].
    apply negb_true_iff in He. rewrite He in H.
    destruct (IH _ _ _ _ Hq H) as [-> ->].
    destruct o; simpl in *; try discriminate.
    + apply rawlink_outcome.
    + apply unlink_outcome.
Qed.

Lemma wait_reports_readiness (timeout : option nat) (env : list event)
    (w w' : World) (b : bool) (t : nat) :
  wait timeout env w = Some (b, w', t) -> b = ready (future w').
Proof.
  unfold wait. destruct (cond_wait timeout env 0 w) as [[w1 t1]|]; [|discriminate].
  by inversion 1.
Qed.

Lemma get_ready (block : bool) (timeout : option nat) (env : list event) (w : World) :
  ready (future w) = true ->
  get block timeout env w = Some (deliver (future w), w).
Proof. unfold get, ready. intros ->. reflexivity. Qed.

(** ** Claims about AsyncResult *)

(** C1 (the code departs from the claim).  Two callbacks are registered on a
    pending future of a handler that has not been started, the future is then
    resolved ([set]) or rejected ([set_exception]), and the handler is
    started so that the completion worker runs the queue.  Both lambdas that
    [set] put on the queue close over the loop variable [callback], which
    holds the second callback by the time they are called: the worker calls
    the second callback twice and the first one never. *)
Theorem C1_late_binding_calls_last_callback_twice :
  let f := PyObj 0 in
  let cb1 := PyObj 1 in
  let cb2 := PyObj 2 in
  let w := rawlink cb2 (rawlink cb1 (World_init f)) in
  let no_raise := fun _ : invocation => false in
  _callbacks (future w) = [cb1; cb2]
  /\ calls (run_lane no_raise CompletionLane (start (set (PyObj 3) w)))
     = [Call cb2 [f]; Call cb2 [f]]
  /\ calls (run_lane no_raise CompletionLane (start (set_exception (PyObj 4) w)))
     = [Call cb2 [f]; Call cb2 [f]].
Proof. repeat split. Qed.

(** The same in general: [set] and [set_exception] enqueue one thunk per
    registered callback, but each of them, called once the loop has ended,
    calls the callback registered last. *)
Lemma resolution_thunks_call_last (w : World) (cbs : list pyobj) (cb : pyobj) :
  _callbacks (future w) = cbs ++ [cb] ->
  let thunk := CompletionThunk (length (cells w)) (this (future w)) in
  forall w', (exists v, w' = set v w) \/ (exists e, w' = set_exception e w) ->
    completion_queue (handler w')
      = completion_queue (handler w) ++ replicate (S (length cbs)) thunk
    /\ call_of (cells w') thunk = Some (Call cb [this (future w)]).
Proof.
  intros Hcbs thunk w' Hw'.
  assert (exists f', w' = link_all (with_future f' w)
                     /\ this f' = this (future w)
                     /\ _callbacks f' = cbs ++ [cb]) as (f' & -> & Hthis & Hcb).
  { destruct Hw' as [[v ->] | [e ->]]; eexists; (split; [reflexivity|]);
      simpl; auto. }
  destruct (link_all_spec (with_future f' w)) as (_ & Hc & Hq & _).
  simpl in Hc, Hq. rewrite Hcb in Hc, Hq. rewrite last_snoc in Hc.
  rewrite Hq, Hc, Hthis, length_app. simpl.
  rewrite Nat.add_1_r. split; [reflexivity|].
  unfold thunk; simpl. rewrite list_lookup_middle by reflexivity. reflexivity.
Qed.

(** C2, as the code has it.  Once the future is ready, [rawlink], [unlink],
    [get], [get_nowait] and [wait] leave the stored value and the stored
    exception as they are, and [get] hands out that stored outcome; but
    nothing refuses a second resolution: a later [set v] stores [v] and
    [None], and a later [set_exception e] stores [e]. *)
Theorem C2_outcome_kept_until_resolved_again (w : World) :
  ready (future w) = true ->
  (forall cb, value (future (rawlink cb w)) = value (future w)
              /\ _exception (future (rawlink cb w)) = _exception (future w))
  /\ (forall cb, value (future (unlink cb w)) = value (future w)
                 /\ _exception (future (unlink cb w)) = _exception (future w))
  /\ (forall block timeout env,
         get block timeout env w = Some (deliver (future w), w))
  /\ (forall env, get_nowait env w = Some (deliver (future w), w))
  /\ (forall timeout env b w' t,
         quiet env = true ->
         wait timeout env w = Some (b, w', t) ->
         b = true
         /\ value (future w') = value (future w)
         /\ _exception (future w') = _exception (future w))
  /\ (forall v, value (future (set v w)) = v
                /\ _exception (future (set v w)) = PyNone)
  /\ (forall e, value (future (set_exception e w)) = value (future w)
                /\ _exception (future (set_exception e w)) = e).
Proof.
  intros Hr. repeat apply conj.
  - intros cb. apply rawlink_outcome.
  - intros cb. apply unlink_outcome.
  - intros. by apply get_ready.
  - intros. by apply get_ready.
  - intros timeout env b w' t Hq H. unfold wait in H.
    destruct (cond_wait timeout env 0 w) as [[w1 t1]|] eqn:E; [|discriminate].
    inversion H; subst; clear H.
    destruct (cond_wait_quiet _ _ _ _ _ _ Hq E) as [Hv He].
    rewrite Hv, He. repeat split.
    apply ready_resolved in Hr. apply negb_true_iff, py_is_false. congruence.
  - intros v. by rewrite set_future.
  - intros e. by rewrite set_exception_future.
Qed.

Lemma C2_outcome_kept_witness :
  let w := set (PyObj 1) (World_init (PyObj 0)) in
  ready (future w) = true
  /\ get true None [] w = Some (Return (PyObj 1), w)
  /\ value (future (set (PyObj 2) w)) = PyObj 2.
Proof.
  assert (Hr : ready (future (set (PyObj 1) (World_init (PyObj 0)))) = true)
    by reflexivity.
  pose proof (C2_outcome_kept_until_resolved_again _ Hr) as (_ & _ & Hget & _ & _ & Hset & _).
  split; [exact Hr|]. split; [apply Hget | apply Hset].
Defined.

(** C2 as stated fails: on a future resolved with one value, a second [set]
    replaces the stored value and a [set_exception] replaces the stored
    (absent) exception. *)
Lemma C2_second_resolution_overwrites :
  let w := set (PyObj 1) (World_init (PyObj 0)) in
  ready (future w) = true
  /\ value (future (set (PyObj 2) w)) <> value (future w)
  /\ _exception (future (set_exception (PyObj 3) w)) <> _exception (future w).
Proof. repeat split; discriminate. Qed.

(** C3.  [successful()] is true exactly when the future is ready and was
    resolved with a value (its exception slot holds [None], which is what
    [set] stores); it is false on a new future, true after [set], and false
    after [set_exception e] for every error object [e], that is, every object
    other than [None], the mark of no error. *)
Theorem C3_successful_unless_none (e : pyobj) (w : World) :
  e <> PyNone ->
  successful (future (set_exception e w)) = false
  /\ (forall self, successful (AsyncResult_init self) = false)
  /\ (forall v, successful (future (set v w)) = true)
  /\ (forall f, successful f = true <-> ready f = true /\ _exception f = PyNone).
Proof.
  intros He. repeat apply conj.
  - rewrite set_exception_future. by apply py_is_false.
  - reflexivity.
  - intros v. by rewrite set_future.
  - intros f. unfold successful. rewrite py_is_true, ready_resolved.
    split; [intros ->; split; [discriminate | reflexivity] | tauto].
Qed.

Lemma C3_successful_witness :
  PyObj 7 <> PyNone
  /\ successful (future (set_exception (PyObj 7) (World_init (PyObj 0)))) = false.
Proof.
  assert (H : PyObj 7 <> PyNone) by discriminate.
  split; [exact H|].
  exact (proj1 (C3_successful_unless_none (PyObj 7) (World_init (PyObj 0)) H)).
Defined.

(** [None] is no error object: [set_exception(None)] stores the mark of
    success itself. *)
Lemma set_exception_none_is_successful (w : World) :
  successful (future (set_exception PyNone w)) = true.
Proof. by rewrite set_exception_future. Qed.


(** C5 (the code departs from the claim).  [wait] goes to sleep on the
    condition without looking at the future first.  On a future that is
    already ready, and with no other thread resolving it again, [wait()]
    without a timeout never returns, and [wait(t)] returns true only after the
    whole timeout [t] has passed. *)
Theorem C5_wait_on_ready_future_sleeps (w : World) (n t : nat) :
  ready (future w) = true ->
  wait None (replicate n Tick) w = None
  /\ wait (Some t) (replicate n Tick) w = Some (true, w, t).
Proof.
  intros Hr. unfold wait.
  destruct (cond_wait_ticks n 0 w) as [-> H]. rewrite H.
  split; [reflexivity|]. unfold ready in Hr. rewrite Hr. reflexivity.
Qed.

Lemma C5_wait_on_ready_future_witness :
  let w := set (PyObj 1) (World_init (PyObj 0)) in
  ready (future w) = true
  /\ wait None [] w = None
  /\ wait (Some 30) [] w = Some (true, w, 30).
Proof.
  assert (Hr : ready (future (set (PyObj 1) (World_init (PyObj 0)))) = true)
    by reflexivity.
  split; [exact Hr|].
  exact (C5_wait_on_ready_future_sleeps _ 0 30 Hr).
Defined.

(** C6, as the code has it.  On a ready future [rawlink] only puts a thunk on
    the completion queue: the thunk calls the given callback with the future,
    nothing is called yet, the future with its list of callbacks and the cells
    of earlier closures are untouched.  On a pending future it appends the
    callback to the list unless the list holds a callback equal to it ([==]),
    in which case nothing changes at all; the same reference is equal to
    itself, so registering a callback reference a second time is a no-op. *)
Theorem C6_rawlink (callback : pyobj) (w : World) :
  (ready (future w) = true ->
     let w' := rawlink callback w in
     let thunk := CompletionThunk (length (cells w)) (this (future w)) in
     completion_queue (handler w') = completion_queue (handler w) ++ [thunk]
     /\ call_of (cells w') thunk = Some (Call callback [this (future w)])
     /\ (forall c, c < length (cells w) -> cells w' !! c = cells w !! c)
     /\ calls w' = calls w
     /\ future w' = future w
     /\ callback_queue (handler w') = callback_queue (handler w)
     /\ session_queue (handler w') = session_queue (handler w))
  /\ (ready (future w) = false ->
      (forall e, e ∈ _callbacks (future w) -> py_eq e callback = false) ->
        _callbacks (future (rawlink callback w)) = _callbacks (future w) ++ [callback]
        /\ handler (rawlink callback w) = handler w
        /\ calls (rawlink callback w) = calls w
        /\ cells (rawlink callback w) = cells w)
  /\ (ready (future w) = false ->
      forall e, e ∈ _callbacks (future w) -> py_eq e callback = true ->
        rawlink callback w = w)
  /\ (ready (future w) = false -> callback ∈ _callbacks (future w) ->
        rawlink callback w = w)
  /\ (ready (future w) = false ->
        rawlink callback (rawlink callback w) = rawlink callback w).
Proof.
  repeat apply conj.
  - intros Hr. unfold rawlink. rewrite Hr. simpl. rewrite bind_cell_fresh.
    repeat split.
    + rewrite list_lookup_middle by reflexivity. reflexivity.
    + intros c Hc. by rewrite lookup_app_l.
  - intros Hr Hn. unfold rawlink. rewrite Hr.
    apply py_in_false in Hn. rewrite Hn. simpl. repeat split.
  - intros Hr e He Heq. unfold rawlink. rewrite Hr.
    assert (py_in callback (_callbacks (future w)) = true) as ->
      by (apply py_in_true; eauto).
    reflexivity.
  - intros Hr Hi. unfold rawlink. rewrite Hr.
    apply elem_of_py_in in Hi. rewrite Hi. reflexivity.
  - intros Hr. unfold rawlink at 2 3. rewrite Hr.
    destruct (py_in callback (_callbacks (future w))) eqn:Hi; simpl.
    + unfold rawlink. by rewrite Hr, Hi.
    + unfold rawlink. simpl. unfold ready in *. simpl. rewrite Hr.
      assert (py_in callback (_callbacks (future w) ++ [callback]) = true) as ->.
      { apply elem_of_py_in, elem_of_app. right. apply list_elem_of_singleton.
        reflexivity. }
      reflexivity.
Qed.

(** C6 as stated fails: [rawlink] does not go by the reference.  With two
    bound method objects [a] and [b] of the same method of the same object,
    [b] is not in the list that holds [a], and yet [rawlink(b)] appends
    nothing. *)
Lemma C6_equal_callback_is_not_appended :
  let a := PyMethod 1 7 8 in
  let b := PyMethod 2 7 8 in
  let w := rawlink a (World_init (PyObj 0)) in
  ready (future w) = false
  /\ (b ∉ _callbacks (future w))
  /\ _callbacks (future (rawlink b w)) <> _callbacks (future w) ++ [b].
Proof.
  cbv zeta. split; [reflexivity|]. split.
  - simpl. rewrite list_elem_of_singleton. discriminate.
  - discriminate.
Qed.

(** The exception slot of a future with a history holds the start sentinel,
    [None], or an object that an earlier [set_exception] of that history was
    given. *)
Lemma exception_slot_origin (self : pyobj) (ops : list op) :
  let f := future (run_ops ops (World_init self)) in
  _exception f = _NONE \/ _exception f = PyNone
  \/ OpSetException (_exception f) ∈ ops.
Proof.
  unfold run_ops. induction ops as [|o ops IH] using rev_ind; [by left|].
  rewrite foldl_app. simpl.
  set (w := foldl (fun w o => apply_op o w) (World_init self) ops) in *.
  assert (forall e, e ∈ ops -> e ∈ ops ++ [o]) as Hin
    by (intros e He; apply elem_of_app; by left).
  destruct o as [v|e|cb|cb]; simpl.
  - rewrite set_future. simpl. auto.
  - rewrite set_exception_future. simpl. right; right.
    apply elem_of_app. right. by apply list_elem_of_singleton.
  - destruct (rawlink_outcome cb w) as [_ ->].
    destruct IH as [H|[H|H]]; auto.
  - destruct (unlink_outcome cb w) as [_ ->].
    destruct IH as [H|[H|H]]; auto.
Qed.

(** C10.  The [exception] property answers [None] on a pending future and on
    one resolved with a value alike, so the two cannot be told apart by it;
    and when it answers an object other than [None], that object was stored
    by a [set_exception] of the future's history. *)
Theorem C10_exception_accessor (self : pyobj) (ops : list op) :
  (forall f, ready f = false -> exception f = PyNone)
  /\ (forall f, successful f = true -> exception f = PyNone)
  /\ (forall v w, exception (future (set v w)) = exception (AsyncResult_init self))
  /\ (let f := future (run_ops ops (World_init self)) in
      exception f <> PyNone ->
      exception f = _exception f /\ OpSetException (exception f) ∈ ops).
Proof.
  repeat apply conj.
  - intros f. unfold exception, ready. by intros ->.
  - intros f. unfold successful, exception. rewrite py_is_true. intros ->.
    reflexivity.
  - intros v w. rewrite set_future. reflexivity.
  - intros f Hne.
    pose proof (exception_slot_origin self ops) as H. fold f in H. simpl in H.
    unfold exception in *.
    destruct (negb (py_is (_exception f) _NONE)) eqn:Hr; [|congruence].
    split; [reflexivity|].
    destruct H as [H|[H|H]]; [| congruence | exact H].
    apply negb_true_iff, py_is_false in Hr. congruence.
Qed.

(** ** Claims about SequentialThreadingHandler *)

(** C8.  [dispatch_callback] appends the thunk [callback.func( *callback.args)]
    to the session queue exactly when [callback.type] is the string "session",
    and to the callback queue for any other type; the other queues, the
    running flag and the workers are untouched.  It inspects nothing but the
    type, so it does the same on a running and on a stopped handler, and as a
    total function it has no failing case. *)
Theorem C8_dispatch_callback (callback : Callback) (w : World) :
  let w' := dispatch_callback callback w in
  let thunk := DispatchThunk callback in
  (type callback = "session" ->
     session_queue (handler w') = session_queue (handler w) ++ [thunk]
     /\ callback_queue (handler w') = callback_queue (handler w))
  /\ (type callback <> "session" ->
        callback_queue (handler w') = callback_queue (handler w) ++ [thunk]
        /\ session_queue (handler w') = session_queue (handler w))
  /\ completion_queue (handler w') = completion_queue (handler w)
  /\ _running (handler w') = _running (handler w)
  /\ _workers (handler w') = _workers (handler w)
  /\ future w' = future w /\ cells w' = cells w /\ calls w' = calls w
  /\ (forall cs, call_of cs thunk = Some (Call (func callback) (args callback)))
  /\ (forall b,
        dispatch_callback callback (with_handler (set_running b (handler w)) w)
        = with_handler (set_running b (handler w')) w').
Proof.
  unfold dispatch_callback. cbv zeta.
  case_bool_decide as Ht; simpl; repeat split; try tauto; try congruence.
Qed.

Lemma set_queue_running (l : lane) (q : list work) (h : SequentialThreadingHandler) :
  _running (set_queue l q h) = _running h.
Proof. by destruct l. Qed.

Lemma set_queue_workers (l : lane) (q : list work) (h : SequentialThreadingHandler) :
  _workers (set_queue l q h) = _workers h.
Proof. by destruct l. Qed.

Lemma join_running (raises : invocation -> bool) (t : Thread) (w w' : World) :
  join raises t w = Some w' ->
  _running (handler w') = _running (handler w)
  /\ _workers (handler w') = _workers (handler w).
Proof.
  unfold join. destruct (alive t); [|by inversion 1].
  destruct (thread_worker _ _ _ _) as [[[] rest] log]; inversion 1; simpl;
    by rewrite set_queue_running, set_queue_workers.
Qed.

Lemma join_loop_running (raises : invocation -> bool) (turns : nat) :
  forall w w', join_loop raises turns w = Some w' ->
               _running (handler w') = _running (handler w).
Proof.
  induction turns as [|n IH]; intros w w'; simpl.
  - destruct (pop _) as [[t rest]|]; [discriminate | by inversion 1].
  - destruct (pop _) as [[t rest]|]; [|by inversion 1].
    destruct (join raises t _) as [w1|] eqn:E; [|discriminate].
    intros H. rewrite (IH _ _ H).
    apply join_running in E as [-> _]. reflexivity.
Qed.

Lemma stop_leaves_stopped (raises : invocation -> bool) (late : lane -> list work)
    (w w' : World) :
  stop raises late w = Some w' -> _running (handler w') = false.
Proof.
  unfold stop. destruct (_running (handler w)) eqn:Hr; simpl.
  - unfold stop_join.
    destruct (join_loop _ _ _) as [w1|] eqn:E; [|discriminate].
    inversion 1; subst. apply join_loop_running in E.
    simpl in E. simpl. exact E.
  - inversion 1; by subst.
Qed.

(** C9.  [start] on a running handler and [stop] on a stopped one return the
    world as it is: flag, workers, queues and all histories (no thread is
    created, none joined); hence a second [start] right after a [start], and
    a second [stop] after a [stop], change nothing. *)
Theorem C9_start_stop_idempotent (raises : invocation -> bool)
    (late late' : lane -> list work) (w : World) :
  (_running (handler w) = true -> start w = w)
  /\ (_running (handler w) = false -> stop raises late w = Some w)
  /\ start (start w) = start w
  /\ (forall w', stop raises late w = Some w' -> stop raises late' w' = Some w').
Proof.
  repeat apply conj.
  - unfold start. by intros ->.
  - unfold stop. by intros ->.
  - unfold start at 2 3. destruct (_running (handler w)) eqn:Hr.
    + unfold start. by rewrite Hr.
    + unfold start. reflexivity.
  - intros w' H. apply stop_leaves_stopped in H. unfold stop. by rewrite H.
Qed.

(** A worker whose queue holds a stop marker leaves its loop, and what it
    calls on the way does not depend on what is queued behind the marker. *)
Lemma thread_worker_marker (raises : invocation -> bool) (cs : list pyobj)
    (q l : list work) :
  forall log,
    exists e rest,
      thread_worker raises cs (q ++ _STOP :: l) log
        = (e, rest, (thread_worker raises cs (q ++ [_STOP]) log).2)
      /\ e <> Blocked.
Proof.
  induction q as [|item q IH]; intros log; simpl.
  - by exists Stopped, l.
  - destruct item as [|c self|cb]; simpl.
    + by exists Stopped, (q ++ _STOP :: l).
    + destruct (cs !! c) as [callback|]; simpl.
      * destruct (raises _); [by exists Died, (q ++ _STOP :: l) | apply IH].
      * by exists Died, (q ++ _STOP :: l).
    + destruct (raises _); [by exists Died, (q ++ _STOP :: l) | apply IH].
Qed.

Lemma set_queue_same (l : lane) (h : SequentialThreadingHandler) :
  set_queue l (queue_of l h) h = h.
Proof. by destruct l, h. Qed.

Lemma join_marked (raises : invocation -> bool) (t : Thread) (w : World)
    (q l : list work) :
  queue_of (target t) (handler w) = q ++ _STOP :: l ->
  exists rest,
    join raises t w
      = Some {| future := future w;
                handler := set_queue (target t) rest (handler w);
                cells := cells w;
                calls := drain raises (cells w) t q (calls w);
                joined := joined w ++ [tid t];
                spawned := spawned w |}.
Proof.
  intros Hq. unfold join, drain. destruct (alive t).
  - rewrite Hq.
    destruct (thread_worker_marker raises (cells w) q l (calls w))
      as (e & rest & -> & He).
    exists rest. by destruct e.
  - exists (queue_of (target t) (handler w)). by rewrite set_queue_same.
Qed.

Lemma start_creates_workers (w : World) :
  _running (handler w) = false ->
  _workers (handler w) = [] ->
  _workers (handler (start w))
    = [ {| tid := spawned w; target := CompletionLane; alive := true |};
        {| tid := S (spawned w); target := CallbackLane; alive := true |};
        {| tid := S (S (spawned w)); target := SessionLane; alive := true |} ]
  /\ _running (handler (start w)) = true.
Proof. unfold start. intros -> Hw. simpl. by rewrite Hw. Qed.

(** What [stop] makes of a running handler whose three workers are the ones
    [start] created: the result, spelled out. *)
Lemma stop_running_result (raises : invocation -> bool) (late : lane -> list work)
    (w : World) (t1 t2 t3 : Thread) :
  _running (handler w) = true ->
  _workers (handler w) = [t1; t2; t3] ->
  target t1 = CompletionLane -> target t2 = CallbackLane -> target t3 = SessionLane ->
  stop raises late w
    = Some {| future := future w;
              handler := Handler_init;
              cells := cells w;
              calls :=
                drain raises (cells w) t3 (session_queue (handler w))
                  (drain raises (cells w) t2 (callback_queue (handler w))
                     (drain raises (cells w) t1 (completion_queue (handler w))
                        (calls w)));
              joined := joined w ++ [tid t1; tid t2; tid t3];
              spawned := spawned w |}.
Proof.
  destruct w as [f [cbq sq cq r ws] cs cl jn sp]. simpl.
  intros -> -> H1 H2 H3.
  unfold stop, stop_join, stop_signal, enqueue_late, stop_clear. simpl.
  unfold pop. simpl.
  match goal with |- context [join raises t1 ?W] =>
    destruct (join_marked raises t1 W cq (late CompletionLane)) as [r1 ->]
  end.
  { rewrite H1. simpl. by rewrite <- app_assoc. }
  rewrite H1. simpl. unfold pop. simpl.
  match goal with |- context [join raises t2 ?W] =>
    destruct (join_marked raises t2 W cbq (late CallbackLane)) as [r2 ->]
  end.
  { rewrite H2. simpl. by rewrite <- app_assoc. }
  rewrite H2. simpl. unfold pop. simpl.
  match goal with |- context [join raises t3 ?W] =>
    destruct (join_marked raises t3 W sq (late SessionLane)) as [r3 ->]
  end.
  { rewrite H3. simpl. by rewrite <- app_assoc. }
  rewrite H3. simpl. rewrite <- !app_assoc. reflexivity.
Qed.

Lemma apply_op_workers (o : op) (w : World) :
  _running (handler (apply_op o w)) = _running (handler w)
  /\ _workers (handler (apply_op o w)) = _workers (handler w).
Proof.
  destruct o as [v|e|cb|cb]; simpl.
  - unfold set. destruct (link_all_spec (with_future
      {| this := this (future w); value := v; _exception := PyNone;
         _callbacks := _callbacks (future w) |} w))
      as (_ & _ & _ & _ & _ & -> & -> & _). by split.
  - unfold set_exception. destruct (link_all_spec (with_future
      {| this := this (future w); value := value (future w); _exception := e;
         _callbacks := _callbacks (future w) |} w))
      as (_ & _ & _ & _ & _ & -> & -> & _). by split.
  - unfold rawlink. destruct (ready (future w)); [by split|].
    destruct (negb _); by split.
  - unfold unlink. destruct (ready (future w)); [by split|].
    destruct (py_in _ _); by split.
Qed.

Lemma workers_of_start_three (w : World) :
  workers_of_start w -> _running (handler w) = true ->
  exists t1 t2 t3,
    _workers (handler w) = [t1; t2; t3]
    /\ target t1 = CompletionLane /\ target t2 = CallbackLane
    /\ target t3 = SessionLane /\ tid t2 = S (tid t1) /\ tid t3 = S (tid t2).
Proof.
  unfold workers_of_start. intros H Hr. rewrite Hr in H. destruct H as [n H].
  destruct (_workers (handler w)) as [|t1 [|t2 [|t3 [|t4 ws]]]]; try discriminate.
  inversion H; subst. exists t1, t2, t3. repeat split; congruence.
Qed.

(** Every world that the operations can produce keeps its workers as [start]
    made them. *)
Lemma reachable_workers (raises : invocation -> bool) (self : pyobj) (w : World) :
  reachable raises self w -> workers_of_start w.
Proof.
  induction 1 as [|w w' _ IH Hstep]; [reflexivity|].
  unfold workers_of_start in *. destruct Hstep as [o w|cb w|w|late w w' Hs|l w].
  - destruct (apply_op_workers o w) as [-> ->]. exact IH.
  - unfold dispatch_callback. case_bool_decide; exact IH.
  - destruct (_running (handler w)) eqn:Hr.
    + unfold start. by rewrite Hr, Hr.
    + destruct (start_creates_workers w Hr IH) as [-> ->].
      by exists (spawned w).
  - destruct (_running (handler w)) eqn:Hr.
    + destruct (workers_of_start_three w) as (t1 & t2 & t3 & Hw & H1 & H2 & H3 & _).
      { unfold workers_of_start. by rewrite Hr. }
      { exact Hr. }
      rewrite (stop_running_result raises late w t1 t2 t3) in Hs by assumption.
      by inversion Hs.
    + unfold stop in Hs. rewrite Hr in Hs. inversion Hs; subst. by rewrite Hr.
  - unfold run_lane. destruct (existsb _ _); [|exact IH].
    destruct (thread_worker _ _ _ _) as [[e rest] log]. simpl.
    rewrite set_queue_running.
    destruct (_running (handler w)); destruct e; try exact IH.
    + destruct IH as [n IH]. exists n. rewrite <- IH, map_map.
      apply map_ext. intros t. by case_bool_decide.
    + destruct IH as [n IH]. exists n. rewrite <- IH, map_map.
      apply map_ext. intros t. by case_bool_decide.
    + by rewrite IH.
    + by rewrite IH.
Qed.

(** C7, as the code has it.  On a running handler [stop] puts one stop marker
    at the end of each queue, joins the three workers in the order in which
    [start] created them (completion, callback, session, with ascending thread
    numbers: [reverse()] followed by [pop()] from the end walks the list from
    its front), leaves three empty queues, no workers and the flag off; and
    whatever was queued behind the markers is dropped unrun, the result being
    the same as if nothing had been queued there. *)
Theorem C7_stop_joins_in_creation_order (raises : invocation -> bool)
    (self : pyobj) (late : lane -> list work) (w : World) :
  reachable raises self w ->
  _running (handler w) = true ->
  (forall l, queue_of l (handler (stop_signal w)) = queue_of l (handler w) ++ [_STOP])
  /\ exists w' n,
       stop raises late w = Some w'
       /\ map tid (_workers (handler w)) = [n; S n; S (S n)]
       /\ map target (_workers (handler w)) = lanes
       /\ joined w' = joined w ++ [n; S n; S (S n)]
       /\ (forall l, queue_of l (handler w') = [])
       /\ _workers (handler w') = []
       /\ _running (handler w') = false
       /\ stop raises (fun _ => []) w = Some w'.
Proof.
  intros Hreach Hr. split.
  - intros []; reflexivity.
  - apply reachable_workers in Hreach.
    destruct (workers_of_start_three w Hreach Hr)
      as (t1 & t2 & t3 & Hw & H1 & H2 & H3 & H12 & H23).
    rewrite (stop_running_result raises late w t1 t2 t3) by assumption.
    rewrite (stop_running_result raises (fun _ => []) w t1 t2 t3) by assumption.
    eexists. exists (tid t1). split; [reflexivity|]. simpl.
    rewrite Hw. simpl. rewrite H1, H2, H3, H23, H12.
    repeat split. intros []; reflexivity.
Qed.

Lemma C7_stop_witness :
  let no_raise := fun _ : invocation => false in
  let session := {| type := "session"; func := PyObj 5; args := [] |} in
  let watch := {| type := "watch"; func := PyObj 6; args := [PyObj 7] |} in
  let w := dispatch_callback session (start (World_init (PyObj 0))) in
  let late := fun l => match l with
                       | CallbackLane => [DispatchThunk watch]
                       | _ => []
                       end in
  reachable no_raise (PyObj 0) w
  /\ exists w',
       stop no_raise late w = Some w'
       /\ joined w' = [0; 1; 2]
       /\ calls w' = [Call (PyObj 5) []].
Proof.
  cbv zeta.
  assert (Hreach : reachable (fun _ => false) (PyObj 0)
            (dispatch_callback {| type := "session"; func := PyObj 5; args := [] |}
               (start (World_init (PyObj 0))))).
  { eapply reachable_step; [|apply step_dispatch].
    eapply reachable_step; [apply reachable_init | apply step_start]. }
  split; [exact Hreach|].
  destruct (C7_stop_joins_in_creation_order
              (fun _ => false) (PyObj 0)
              (fun l => match l with
                        | CallbackLane =>
                            [DispatchThunk {| type := "watch"; func := PyObj 6;
                                              args := [PyObj 7] |}]
                        | _ => []
                        end)
              _ Hreach eq_refl)
    as (_ & w' & n & Hs & Hn & _ & Hj & _ & _ & _ & H0).
  exists w'. split; [exact Hs|].
  vm_compute in Hn. inversion Hn; subst n.
  split; [exact Hj|].
  vm_compute in H0. inversion H0. reflexivity.
Defined.

(** C7 as stated fails: after [start] created the workers 0, 1, 2 in that
    order, [stop] joins them as 0, 1, 2 and not in the reverse order. *)
Lemma C7_joins_are_not_reversed :
  let w := start (World_init (PyObj 0)) in
  let joins := joined <$> stop (fun _ => false) (fun _ => []) w in
  map tid (_workers (handler w)) = [0; 1; 2]
  /\ joins = Some [0; 1; 2]
  /\ joins <> Some (reverse (map tid (_workers (handler w)))).
Proof. repeat split. discriminate. Qed.

(** ** The claims on concrete runs *)


(** C6 on a run: the second registration of a callback leaves the pending
    future as the first one made it. *)
Lemma C6_rawlink_witness :
  let w := rawlink (PyObj 1) (World_init (PyObj 0)) in
  _callbacks (future w) = [PyObj 1] /\ rawlink (PyObj 1) w = w.
Proof.
  split; [reflexivity|].
  destruct (C6_rawlink (PyObj 1) (rawlink (PyObj 1) (World_init (PyObj 0))))
    as (_ & _ & _ & Hdup & _).
  apply Hdup; [reflexivity|]. apply list_elem_of_singleton. reflexivity.
Defined.

(** * Further properties of the module *)

(** ** Registering and unregistering *)

Lemma py_remove_snoc (x : pyobj) (l : list pyobj) :
  (forall e, e ∈ l -> py_eq e x = false) -> py_remove x (l ++ [x]) = l.
Proof.
  induction l as [|e l IH]; intros Hn; simpl.
  - by rewrite py_eq_refl.
  - rewrite (Hn e) by (apply elem_of_cons; by left).
    rewrite IH; [done|]. intros e' He'. apply Hn, elem_of_cons. by right.
Qed.

Lemma py_remove_sublist (x : pyobj) (l : list pyobj) :
  py_remove x l `sublist_of` l.
Proof.
  induction l as [|e l IH]; simpl; [done|].
  destruct (py_eq e x); [by apply sublist_cons | by apply sublist_skip].
Qed.

Lemma py_in_sublist (x : pyobj) (l k : list pyobj) :
  l `sublist_of` k -> py_in x k = false -> py_in x l = false.
Proof.
  intros Hs Hk. apply py_in_false. intros e He.
  eapply py_in_false; [exact Hk|]. by eapply elem_of_sublist.
Qed.

Lemma py_in_proper (x y : pyobj) (l : list pyobj) :
  py_eq x y = true -> py_in x l = true -> py_in y l = true.
Proof.
  intros Hxy Hx. apply py_in_true in Hx as (e & He & Hex).
  apply py_in_true. exists e. split; [done|]. by eapply py_eq_trans.
Qed.

Lemma py_distinct_snoc (x : pyobj) (l : list pyobj) :
  py_distinct l = true -> py_in x l = false -> py_distinct (l ++ [x]) = true.
Proof.
  induction l as [|e l IH]; simpl; intros Hd Hx; [done|].
  apply andb_true_iff in Hd as [He Hd]. apply negb_true_iff in He.
  apply orb_false_iff in Hx as [Hex Hx].
  apply orb_false_iff in Hex as [_ Hex].
  rewrite IH by done. rewrite andb_true_r. apply negb_true_iff.
  apply py_in_false. intros e' He'. apply elem_of_app in He' as [He'|He'].
  - by eapply py_in_false.
  - apply list_elem_of_singleton in He'. subst.
    destruct (py_eq x e) eqn:E; [|done].
    apply py_eq_sym in E. congruence.
Qed.

Lemma py_distinct_remove (x : pyobj) (l : list pyobj) :
  py_distinct l = true -> py_distinct (py_remove x l) = true.
Proof.
  induction l as [|e l IH]; simpl; [done|]. intros Hd.
  apply andb_true_iff in Hd as [He Hd].
  destruct (py_eq e x); [done|]. simpl. rewrite IH by done.
  rewrite andb_true_r. apply negb_true_iff.
  apply negb_true_iff in He. eapply py_in_sublist; [apply py_remove_sublist | done].
Qed.

Lemma py_remove_leaves_none (x : pyobj) (l : list pyobj) :
  py_distinct l = true -> py_in x (py_remove x l) = false.
Proof.
  induction l as [|e l IH]; simpl; [done|]. intros Hd.
  apply andb_true_iff in Hd as [He Hd]. apply negb_true_iff in He.
  destruct (py_eq e x) eqn:E.
  - destruct (py_in x l) eqn:Hx; [|done].
    apply (py_in_proper x e) in Hx; [congruence | by apply py_eq_sym].
  - simpl. rewrite E, IH by done. rewrite !orb_false_r.
    apply py_is_false. intros ->. by rewrite py_eq_refl in E.
Qed.

Lemma py_distinct_NoDup (l : list pyobj) : py_distinct l = true -> NoDup l.
Proof.
  induction l as [|e l IH]; simpl; [intros _; apply NoDup_nil_2|].
  intros Hd. apply andb_true_iff in Hd as [He Hd]. apply negb_true_iff in He.
  apply NoDup_cons. split; [|by apply IH].
  intros Hin. apply elem_of_py_in in Hin. congruence.
Qed.

(** X1.  On a pending future, [unlink] takes back a [rawlink] of a callback
    to which none of the registered callbacks is equal: the world is again
    what it was. *)
Theorem X1_unlink_undoes_rawlink (callback : pyobj) (w : World) :
  ready (future w) = false ->
  (forall e, e ∈ _callbacks (future w) -> py_eq e callback = false) ->
  unlink callback (rawlink callback w) = w.
Proof.
  intros Hr Hn. unfold rawlink. rewrite Hr.
  rewrite (proj2 (py_in_false _ _) Hn). simpl.
  unfold unlink. simpl. unfold ready in *. simpl. rewrite Hr.
  assert (py_in callback (_callbacks (future w) ++ [callback]) = true) as ->.
  { apply elem_of_py_in, elem_of_app. right. by apply list_elem_of_singleton. }
  rewrite py_remove_snoc by done.
  by destruct w as [[] ? ? ? ? ?].
Qed.

Lemma X1_unlink_undoes_rawlink_witness :
  let w := rawlink (PyMethod 1 7 8) (World_init (PyObj 0)) in
  _callbacks (future (rawlink (PyMethod 2 7 9) w)) = [PyMethod 1 7 8; PyMethod 2 7 9]
  /\ unlink (PyMethod 2 7 9) (rawlink (PyMethod 2 7 9) w) = w.
Proof.
  split; [reflexivity|].
  apply X1_unlink_undoes_rawlink; [reflexivity|].
  intros e He. simpl in He. apply list_elem_of_singleton in He. by subst.
Defined.

(** A step of the world either is an operation on the future or leaves the
    future and the cells alone. *)
Lemma join_future (raises : invocation -> bool) (t : Thread) (w w' : World) :
  join raises t w = Some w' -> future w' = future w /\ cells w' = cells w.
Proof.
  unfold join. destruct (alive t); [|by inversion 1].
  destruct (thread_worker _ _ _ _) as [[[] rest] log]; by inversion 1.
Qed.

Lemma join_loop_future (raises : invocation -> bool) (turns : nat) :
  forall w w', join_loop raises turns w = Some w' ->
               future w' = future w /\ cells w' = cells w.
Proof.
  induction turns as [|n IH]; intros w w'; simpl.
  - destruct (pop _) as [[t rest]|]; [discriminate | by inversion 1].
  - destruct (pop _) as [[t rest]|]; [|by inversion 1].
    destruct (join raises t _) as [w1|] eqn:E; [|discriminate].
    intros H. destruct (IH _ _ H) as [-> ->].
    by apply join_future in E.
Qed.

Lemma step_future (raises : invocation -> bool) (w w' : World) :
  step raises w w' ->
  (exists o, w' = apply_op o w) \/ (future w' = future w /\ cells w' = cells w).
Proof.
  destruct 1 as [o w|cb w|w|late w w' Hs|l w].
  - left. by exists o.
  - right. unfold dispatch_callback. by case_bool_decide.
  - right. unfold start. by destruct (_running (handler w)).
  - right. unfold stop in Hs. destruct (negb _); [by inversion Hs|].
    unfold stop_join in Hs.
    destruct (join_loop _ _ _) as [w1|] eqn:E; [|discriminate].
    inversion Hs; subst. by apply join_loop_future in E.
  - right. unfold run_lane. destruct (existsb _ _); [|done].
    by destruct (thread_worker _ _ _ _) as [[e rest] log].
Qed.

Lemma apply_op_callbacks_distinct (o : op) (w : World) :
  py_distinct (_callbacks (future w)) = true ->
  py_distinct (_callbacks (future (apply_op o w))) = true.
Proof.
  intros Hd. destruct o as [v|e|cb|cb]; simpl.
  - by rewrite set_future.
  - by rewrite set_exception_future.
  - unfold rawlink. destruct (ready (future w)); [done|].
    destruct (py_in cb _) eqn:E; simpl; [done|].
    by apply py_distinct_snoc.
  - unfold unlink. destruct (ready (future w)); [done|].
    destruct (py_in cb _); simpl; [|done].
    by apply py_distinct_remove.
Qed.

Lemma reachable_callbacks_distinct (raises : invocation -> bool) (self : pyobj)
    (w : World) :
  reachable raises self w -> py_distinct (_callbacks (future w)) = true.
Proof.
  induction 1 as [|w w' _ IH Hstep]; [done|].
  destruct (step_future _ _ _ Hstep) as [[o ->]|[-> _]]; [|done].
  by apply apply_op_callbacks_distinct.
Qed.

Lemma unlink_unregisters (callback : pyobj) (w : World) :
  py_distinct (_callbacks (future w)) = true ->
  ready (future w) = false ->
  py_in callback (_callbacks (future (unlink callback w))) = false.
Proof.
  intros Hd Hr. unfold unlink. rewrite Hr.
  destruct (py_in callback (_callbacks (future w))) eqn:E; simpl; [|done].
  by apply py_remove_leaves_none.
Qed.

(** X2.  The list of registered callbacks never holds two callbacks that are
    equal ([==]), let alone one callback twice; and so an [unlink] on a
    pending future leaves no callback registered that is equal to the one
    given. *)
Theorem X2_callbacks_registered_once (raises : invocation -> bool) (self : pyobj)
    (w : World) :
  reachable raises self w ->
  py_distinct (_callbacks (future w)) = true
  /\ NoDup (_callbacks (future w))
  /\ forall callback,
       ready (future w) = false ->
       forall e, e ∈ _callbacks (future (unlink callback w)) ->
                 py_eq e callback = false.
Proof.
  intros Hreach. apply reachable_callbacks_distinct in Hreach.
  split; [done|]. split; [by apply py_distinct_NoDup|].
  intros cb Hr. apply py_in_false. by apply unlink_unregisters.
Qed.

Lemma X2_callbacks_registered_once_witness :
  let ops := [OpRawlink (PyMethod 1 7 8); OpRawlink (PyObj 2);
              OpRawlink (PyMethod 3 7 8)] in
  let w := run_ops ops (World_init (PyObj 0)) in
  _callbacks (future w) = [PyMethod 1 7 8; PyObj 2]
  /\ py_distinct (_callbacks (future w)) = true
  /\ _callbacks (future (unlink (PyMethod 3 7 8) w)) = [PyObj 2].
Proof.
  cbv zeta. split; [reflexivity|].
  assert (Hreach : reachable (fun _ => false) (PyObj 0)
            (run_ops [OpRawlink (PyMethod 1 7 8); OpRawlink (PyObj 2);
                      OpRawlink (PyMethod 3 7 8)] (World_init (PyObj 0)))).
  { unfold run_ops. simpl.
    repeat (eapply reachable_step; [|apply (step_op _ (OpRawlink _))]).
    apply reachable_init. }
  destruct (X2_callbacks_registered_once _ _ _ Hreach) as [Hd _].
  split; [exact Hd | reflexivity].
Defined.

(** ** Resolution and the queued thunks *)

(** Both resolving operations are the loop over the callbacks, run on a
    future that differs from the old one in its value and exception only. *)
Lemma resolution_shape (o : op) (w : World) :
  notifies o = true ->
  exists f', apply_op o w = link_all (with_future f' w)
             /\ this f' = this (future w)
             /\ _callbacks f' = _callbacks (future w).
Proof.
  destruct o as [v|e|cb|cb]; try discriminate; intros _; simpl;
    eexists; (split; [reflexivity|]); by simpl.
Qed.

(** X3.  A callback that was unregistered while the future was pending is
    called by none of the thunks that a later [set] or [set_exception] puts on
    the completion queue, and neither is any callback equal to it; the
    resolution enqueues one thunk for each callback that is still
    registered. *)
Theorem X3_unlinked_callback_not_called (raises : invocation -> bool)
    (self : pyobj) (callback : pyobj) (o : op) (w : World) :
  reachable raises self w ->
  ready (future w) = false ->
  notifies o = true ->
  let w' := unlink callback w in
  let thunk := CompletionThunk (length (cells w')) (this (future w')) in
  completion_queue (handler (apply_op o w'))
    = completion_queue (handler w')
        ++ replicate (length (_callbacks (future w'))) thunk
  /\ forall c a, call_of (cells (apply_op o w')) thunk = Some (Call c a) ->
                 py_eq c callback = false.
Proof.
  intros Hreach Hr Ho w' thunk.
  pose proof (unlink_unregisters callback w
                (reachable_callbacks_distinct _ _ _ Hreach) Hr) as Hun.
  fold w' in Hun.
  destruct (resolution_shape o w' Ho) as (f' & -> & Hthis & Hcb).
  destruct (link_all_spec (with_future f' w')) as (_ & Hc & Hq & _).
  simpl in Hc, Hq. rewrite Hcb, Hthis in *. split; [exact Hq|].
  intros c a. unfold thunk; simpl. rewrite Hc.
  destruct (last (_callbacks (future w'))) as [cb|] eqn:El.
  - rewrite list_lookup_middle by reflexivity. simpl. intros H.
    inversion H; subst. eapply py_in_false; [exact Hun|].
    apply last_Some in El as [l' ->].
    apply elem_of_app. right. by apply list_elem_of_singleton.
  - rewrite lookup_ge_None_2 by lia. discriminate.
Qed.

Lemma X3_unlinked_callback_witness :
  let w := rawlink (PyMethod 2 7 8) (rawlink (PyObj 1) (World_init (PyObj 0))) in
  let w' := unlink (PyMethod 3 7 8) w in
  completion_queue (handler (set (PyObj 9) w')) = [CompletionThunk 0 (PyObj 0)]
  /\ call_of (cells (set (PyObj 9) w')) (CompletionThunk 0 (PyObj 0))
     = Some (Call (PyObj 1) [PyObj 0])
  /\ py_eq (PyObj 1) (PyMethod 3 7 8) = false.
Proof.
  cbv zeta.
  assert (Hreach : reachable (fun _ => false) (PyObj 0)
            (rawlink (PyMethod 2 7 8) (rawlink (PyObj 1) (World_init (PyObj 0))))).
  { repeat (eapply reachable_step; [|apply (step_op _ (OpRawlink _))]).
    apply reachable_init. }
  destruct (X3_unlinked_callback_not_called _ _ (PyMethod 3 7 8) (OpSet (PyObj 9)) _
              Hreach eq_refl eq_refl) as [Hq Hc].
  split; [exact Hq|]. split; [reflexivity|].
  exact (Hc (PyObj 1) [PyObj 0] eq_refl).
Defined.

(** X4.  A ready future stays ready under every sequence of operations in
    which nobody stores the private sentinel with [set_exception(_NONE)];
    that one call makes the future pending again. *)
Theorem X4_ready_persists (ops : list op) (w : World) :
  Forall (fun o => o <> OpSetException _NONE) ops ->
  ready (future w) = true ->
  ready (future (run_ops ops w)) = true
  /\ ready (future (set_exception _NONE w)) = false.
Proof.
  intros Hops Hr. split; [|by rewrite set_exception_future].
  unfold run_ops. revert w Hr.
  induction Hops as [|o ops Ho _ IH]; intros w Hr; simpl; [done|].
  apply IH. destruct o as [v|e|cb|cb]; simpl.
  - by rewrite set_future.
  - rewrite set_exception_future. apply ready_resolved. simpl. congruence.
  - apply ready_resolved. destruct (rawlink_outcome cb w) as [_ ->].
    by apply ready_resolved.
  - apply ready_resolved. destruct (unlink_outcome cb w) as [_ ->].
    by apply ready_resolved.
Qed.

Lemma X4_ready_persists_witness :
  let w := set_exception (PyObj 5) (World_init (PyObj 0)) in
  ready (future (run_ops [OpRawlink (PyObj 1); OpSet (PyObj 2); OpUnlink (PyObj 1)] w))
    = true.
Proof.
  apply (X4_ready_persists
           [OpRawlink (PyObj 1); OpSet (PyObj 2); OpUnlink (PyObj 1)]
           (set_exception (PyObj 5) (World_init (PyObj 0)))); [|reflexivity].
  repeat constructor; discriminate.
Defined.

Lemma apply_op_cells (o : op) (w : World) :
  cells w `prefix_of` cells (apply_op o w).
Proof.
  destruct (notifies o) eqn:Ho.
  - destruct (resolution_shape o w Ho) as (f' & -> & _ & _).
    destruct (link_all_spec (with_future f' w)) as (_ & -> & _). simpl.
    destruct (last (_callbacks f')); [by apply prefix_app_r | done].
  - destruct o as [v|e|cb|cb]; try discriminate; simpl.
    + unfold rawlink. destruct (ready (future w)); simpl.
      * rewrite bind_cell_fresh. by apply prefix_app_r.
      * by destruct (negb _).
    + unfold unlink. destruct (ready (future w)); [done|].
      by destruct (py_in _ _).
Qed.

Lemma step_cells (raises : invocation -> bool) (w w' : World) :
  step raises w w' -> cells w `prefix_of` cells w'.
Proof.
  intros Hstep. destruct (step_future _ _ _ Hstep) as [[o ->]|[_ ->]]; [|done].
  apply apply_op_cells.
Qed.

Lemma steps_cells (raises : invocation -> bool) (w w' : World) :
  rtc (step raises) w w' -> cells w `prefix_of` cells w'.
Proof.
  induction 1 as [|w w1 w2 Hstep _ IH]; [done|].
  etrans; [by eapply step_cells | done].
Qed.

(** X5.  A thunk keeps its callee once the call that made it has returned:
    whatever happens to the world afterwards (further registrations,
    resolutions, dispatches, [start], [stop], workers running), a thunk whose
    variable is bound calls the same callback with the same argument. *)
Theorem X5_queued_thunk_keeps_callee (raises : invocation -> bool)
    (w w' : World) (c : nat) (self : pyobj) :
  rtc (step raises) w w' ->
  c < length (cells w) ->
  call_of (cells w') (CompletionThunk c self)
    = call_of (cells w) (CompletionThunk c self).
Proof.
  intros Hsteps Hc. apply steps_cells in Hsteps as [tail ->].
  simpl. by rewrite lookup_app_l.
Qed.

Lemma X5_queued_thunk_witness :
  let w := rawlink (PyObj 1) (set (PyObj 9) (World_init (PyObj 0))) in
  let w' := set (PyObj 8) (rawlink (PyObj 2) w) in
  completion_queue (handler w) = [CompletionThunk 0 (PyObj 0)]
  /\ call_of (cells w') (CompletionThunk 0 (PyObj 0)) = Some (Call (PyObj 1) [PyObj 0]).
Proof.
  cbv zeta. split; [reflexivity|].
  rewrite (X5_queued_thunk_keeps_callee (fun _ => false)
             (rawlink (PyObj 1) (set (PyObj 9) (World_init (PyObj 0))))).
  - reflexivity.
  - eapply rtc_l; [apply (step_op _ (OpRawlink (PyObj 2)))|].
    eapply rtc_l; [apply (step_op _ (OpSet (PyObj 8)))|]. apply rtc_refl.
  - simpl. lia.
Defined.

(** X6.  With a single callback the order of registration and resolution does
    not matter: registered before [set] or after it, the callback gets
    exactly one thunk on the completion queue, and that thunk calls it with
    the future. *)
Theorem X6_single_callback (callback v : pyobj) (w : World) :
  ready (future w) = false ->
  _callbacks (future w) = [] ->
  let self := this (future w) in
  let thunk := CompletionThunk (length (cells w)) self in
  (completion_queue (handler (set v (rawlink callback w)))
     = completion_queue (handler w) ++ [thunk]
   /\ call_of (cells (set v (rawlink callback w))) thunk
      = Some (Call callback [self]))
  /\ (completion_queue (handler (rawlink callback (set v w)))
        = completion_queue (handler w) ++ [thunk]
      /\ call_of (cells (rawlink callback (set v w))) thunk
         = Some (Call callback [self])).
Proof.
  intros Hr Hcb self thunk. split.
  - unfold rawlink. rewrite Hr, Hcb. simpl.
    unfold set, link_all. simpl. unfold link_step. simpl.
    rewrite bind_cell_fresh. split; [reflexivity|].
    by rewrite list_lookup_middle.
  - unfold rawlink. rewrite set_future. unfold ready at 1. simpl.
    unfold set, link_all. simpl. rewrite Hcb. simpl.
    rewrite bind_cell_fresh. split; [reflexivity|].
    by rewrite list_lookup_middle.
Qed.

Lemma X6_single_callback_witness :
  let w := World_init (PyObj 0) in
  call_of (cells (set (PyObj 9) (rawlink (PyObj 1) w))) (CompletionThunk 0 (PyObj 0))
    = Some (Call (PyObj 1) [PyObj 0])
  /\ call_of (cells (rawlink (PyObj 1) (set (PyObj 9) w))) (CompletionThunk 0 (PyObj 0))
     = Some (Call (PyObj 1) [PyObj 0]).
Proof.
  destruct (X6_single_callback (PyObj 1) (PyObj 9) (World_init (PyObj 0))
              eq_refl eq_refl) as [[_ H1] [_ H2]].
  split; [exact H1 | exact H2].
Defined.

(** ** Waiting and getting *)

Lemma cond_wait_duration (env : list event) :
  forall (timeout : option nat) (elapsed : nat) (w w' : World) (e : nat),
    cond_wait timeout env elapsed w = Some (w', e) ->
    match timeout with
    | Some t => elapsed <= t -> e <= t /\ (e < t -> quiet env = false)
    | None => quiet env = false
    end.
Proof.
  induction env as [|ev env IH]; intros timeout elapsed w w' e H; simpl in H.
  - destruct timeout as [t|]; simpl in H; [|discriminate].
    case_bool_decide; inversion H; subst; intros; split; lia.
  - destruct timeout as [t|]; simpl in H.
    + case_bool_decide as Ht.
      { inversion H; subst. intros; split; lia. }
      destruct ev as [|o].
      * intros _. destruct (IH (Some t) _ _ _ _ H) as [H1 H2]; [lia|].
        split; [done|]. exact H2.
      * destruct (notifies o) eqn:Ho.
        -- inversion H; subst. intros; split; [done|]. by simpl; rewrite Ho.
        -- intros Hle. destruct (IH (Some t) _ _ _ _ H Hle) as [H1 H2].
           split; [done|]. simpl. rewrite Ho. exact H2.
    + destruct ev as [|o].
      * exact (IH None _ _ _ _ H).
      * destruct (notifies o) eqn:Ho; simpl; rewrite Ho; [done|].
        exact (IH None _ _ _ _ H).
Qed.

(** X7.  [wait] never sleeps longer than its timeout, and it returns before
    the timeout is over (or at all, when there is no timeout) only if another
    thread has resolved the future in the meantime. *)
Theorem X7_wait_duration (timeout : option nat) (env : list event)
    (w w' : World) (b : bool) (e : nat) :
  wait timeout env w = Some (b, w', e) ->
  match timeout with
  | Some t => e <= t /\ (e < t -> quiet env = false)
  | None => quiet env = false
  end.
Proof.
  unfold wait. destruct (cond_wait timeout env 0 w) as [[w1 e1]|] eqn:E;
    [|discriminate].
  inversion 1; subst. apply cond_wait_duration in E.
  destruct timeout; [apply E; lia | exact E].
Qed.

Lemma X7_wait_duration_witness :
  let env := [Tick; Tick; Other (OpSet (PyObj 9)); Tick] in
  let w := World_init (PyObj 0) in
  wait (Some 5) env w = Some (true, set (PyObj 9) w, 2)
  /\ 2 <= 5 /\ quiet env = false.
Proof.
  cbv zeta. split; [reflexivity|].
  destruct (X7_wait_duration (Some 5)
              [Tick; Tick; Other (OpSet (PyObj 9)); Tick]
              (World_init (PyObj 0)) _ _ _ eq_refl) as [Hle Hq].
  split; [exact Hle | apply Hq; lia].
Defined.

Lemma cond_wait_pending_quiet (timeout : option nat) (env : list event) :
  forall (elapsed : nat) (w w' : World) (e : nat),
    quiet env = true ->
    ready (future w) = false ->
    cond_wait timeout env elapsed w = Some (w', e) ->
    ready (future w') = false /\ handler w' = handler w /\ cells w' = cells w
    /\ calls w' = calls w /\ value (future w') = value (future w).
Proof.
  induction env as [|ev env IH]; intros elapsed w w' e Hq Hr H; simpl in *.
  - destruct (expired timeout elapsed); [by inversion H; subst|].
    destruct timeout; by inversion H; subst.
  - apply andb_true_iff in Hq as [Hev Hq].
    destruct (expired timeout elapsed); [by inversion H; subst|].
    destruct ev as [|o]; [by eapply IH|].
    apply negb_true_iff in Hev. rewrite Hev in H.
    assert (ready (future (apply_op o w)) = false
            /\ handler (apply_op o w) = handler w
            /\ cells (apply_op o w) = cells w
            /\ calls (apply_op o w) = calls w
            /\ value (future (apply_op o w)) = value (future w))
      as (Hr' & Hh & Hc & Hl & Hv).
    { destruct o as [v|x|cb|cb]; try discriminate; simpl.
      - unfold rawlink. rewrite Hr. by destruct (negb _).
      - unfold unlink. rewrite Hr. by destruct (py_in _ _). }
    destruct (IH _ _ _ _ Hq Hr' H) as (-> & -> & -> & -> & ->). done.
Qed.

(** X8.  A timeout has no effect on the future: on a pending future that no
    other thread resolves, a blocking [get] with timeout [t] raises
    [TimeoutError] and [wait] returns false after exactly [t], and the
    future is still pending with its value, and the handler with its queues,
    as before. *)
Theorem X8_timeout_without_effect (t : nat) (env : list event) (w : World) :
  ready (future w) = false ->
  quiet env = true ->
  exists w',
    get true (Some t) env w = Some (RaiseTimeoutError, w')
    /\ wait (Some t) env w = Some (false, w', t)
    /\ ready (future w') = false
    /\ value (future w') = value (future w)
    /\ handler w' = handler w.
Proof.
  intros Hr Hq.
  destruct (cond_wait_timeout t env 0 w) as [[w' e] E].
  destruct (cond_wait_pending_quiet _ _ _ _ _ _ Hq Hr E) as (Hr' & Hh & _ & _ & Hv).
  pose proof (cond_wait_duration _ _ _ _ _ _ E) as Hd. simpl in Hd.
  destruct Hd as [Hle Hlt]; [lia|].
  assert (e = t) as -> by (destruct (decide (e < t)) as [Hlt'|]; [|lia];
                           specialize (Hlt Hlt'); congruence).
  exists w'. unfold get, wait. unfold ready in Hr, Hr'.
  rewrite Hr, E, Hr'. repeat split; done.
Qed.

Lemma X8_timeout_witness :
  let w := rawlink (PyObj 1) (World_init (PyObj 0)) in
  let env := [Tick; Other (OpUnlink (PyObj 1)); Tick] in
  ready (future w) = false /\ quiet env = true
  /\ exists w', get true (Some 3) env w = Some (RaiseTimeoutError, w')
                /\ wait (Some 3) env w = Some (false, w', 3).
Proof.
  cbv zeta. split; [reflexivity|]. split; [reflexivity|].
  destruct (X8_timeout_without_effect 3 [Tick; Other (OpUnlink (PyObj 1)); Tick]
              (rawlink (PyObj 1) (World_init (PyObj 0))) eq_refl eq_refl)
    as (w' & Hget & Hwait & _).
  exists w'. split; [exact Hget | exact Hwait].
Defined.

(** X9.  What a resolution stores is what [get] hands out, blocking or not:
    after [set v] it returns [v]; after [set_exception e] it raises [e]; and
    after [set_exception(None)], which stores the marker of success, it
    returns whatever value the future held. *)
Theorem X9_get_after_resolution (block : bool) (timeout : option nat)
    (env : list event) (w : World) :
  (forall v, get block timeout env (set v w) = Some (Return v, set v w))
  /\ (forall e, e <> PyNone -> e <> _NONE ->
        get block timeout env (set_exception e w)
        = Some (Raise e, set_exception e w))
  /\ get block timeout env (set_exception PyNone w)
     = Some (Return (value (future w)), set_exception PyNone w).
Proof.
  repeat apply conj.
  - intros v. rewrite get_ready by (by rewrite set_future).
    by rewrite set_future.
  - intros e Hn Hp. rewrite get_ready.
    + rewrite set_exception_future. unfold deliver. simpl.
      by rewrite (proj2 (py_is_false e PyNone)).
    + rewrite set_exception_future. by apply ready_resolved.
  - rewrite get_ready by (by rewrite set_exception_future).
    by rewrite set_exception_future.
Qed.

Lemma cond_wait_woken (timeout : option nat) (k : nat) (o : op)
    (env : list event) :
  forall (elapsed : nat) (w : World),
    notifies o = true ->
    expired timeout (elapsed + k) = false ->
    cond_wait timeout (replicate k Tick ++ Other o :: env) elapsed w
    = Some (apply_op o w, elapsed + k).
Proof.
  induction k as [|k IH]; intros elapsed w Ho He; simpl.
  - rewrite Nat.add_0_r in *. by rewrite He, Ho.
  - assert (expired timeout elapsed = false) as ->.
    { destruct timeout as [t|]; [|done]. simpl in *.
      apply bool_decide_eq_false in He. apply bool_decide_eq_false. lia. }
    rewrite IH; [f_equal; f_equal; lia | done |].
    by replace (S elapsed + k) with (elapsed + S k) by lia.
Qed.

(** X10.  A waiter is released by the first resolution: if another thread
    resolves the future after [k] ticks, before the timeout is over, then
    [wait] returns after [k] ticks in the world that resolution left, and a
    blocking [get] on a pending future returns the value of a [set] or
    raises the exception of a [set_exception]. *)
Theorem X10_released_by_resolution (timeout : option nat) (k : nat) (o : op)
    (env : list event) (w : World) :
  notifies o = true ->
  expired timeout k = false ->
  let during := replicate k Tick ++ Other o :: env in
  wait timeout during w
    = Some (ready (future (apply_op o w)), apply_op o w, k)
  /\ (ready (future w) = false ->
      (forall v, o = OpSet v ->
         get true timeout during w = Some (Return v, set v w))
      /\ (forall e, o = OpSetException e -> e <> PyNone -> e <> _NONE ->
            get true timeout during w = Some (Raise e, set_exception e w))).
Proof.
  intros Ho He during.
  pose proof (cond_wait_woken timeout k o env 0 w Ho He) as E. simpl in E.
  fold during in E. split.
  - unfold wait. by rewrite E.
  - intros Hr. unfold get. unfold ready in Hr. rewrite Hr, E. split.
    + intros v ->. simpl. by rewrite set_future.
    + intros e -> Hn Hp. simpl. rewrite set_exception_future. simpl.
      rewrite (proj2 (py_is_false e _NONE)) by done. simpl.
      unfold deliver. simpl. by rewrite (proj2 (py_is_false e PyNone)).
Qed.

Lemma X10_released_witness :
  let w := World_init (PyObj 0) in
  get true (Some 10) [Tick; Tick; Other (OpSet (PyObj 42))] w
    = Some (Return (PyObj 42), set (PyObj 42) w)
  /\ wait None [Tick; Other (OpSetException (PyObj 7))] w
     = Some (true, set_exception (PyObj 7) w, 1).
Proof.
  cbv zeta. split.
  - destruct (X10_released_by_resolution (Some 10) 2 (OpSet (PyObj 42)) []
                (World_init (PyObj 0)) eq_refl eq_refl) as [_ H].
    destruct (H eq_refl) as [Hv _]. exact (Hv _ eq_refl).
  - exact (proj1 (X10_released_by_resolution None 1 (OpSetException (PyObj 7)) []
                    (World_init (PyObj 0)) eq_refl eq_refl)).
Defined.

(** ** Dispatching and the worker loop *)

Lemma dispatch_all_queues (callbacks : list Callback) (w : World) :
  let w' := dispatch_all callbacks w in
  session_queue (handler w')
    = session_queue (handler w)
        ++ map DispatchThunk (List.filter is_session callbacks)
  /\ callback_queue (handler w')
     = callback_queue (handler w)
         ++ map DispatchThunk (List.filter (fun cb => negb (is_session cb)) callbacks)
  /\ completion_queue (handler w') = completion_queue (handler w)
  /\ _running (handler w') = _running (handler w)
  /\ _workers (handler w') = _workers (handler w)
  /\ future w' = future w /\ cells w' = cells w /\ calls w' = calls w.
Proof.
  unfold dispatch_all. revert w.
  induction callbacks as [|cb cbs IH]; intros w; simpl.
  - rewrite !app_nil_r. repeat split.
  - destruct (IH (dispatch_callback cb w)) as (-> & -> & -> & -> & -> & -> & -> & ->).
    unfold dispatch_callback, is_session.
    case_bool_decide; simpl; rewrite <- ?app_assoc; repeat split.
Qed.

(** X11.  A producer's callbacks keep their order within each category: the
    session queue receives the thunks of the callbacks of type "session", in
    the order of dispatch, the callback queue those of all the others, and the
    completion queue, the flag and the workers are not touched. *)
Theorem X11_dispatch_keeps_order (callbacks : list Callback) (w : World) :
  let w' := dispatch_all callbacks w in
  session_queue (handler w')
    = session_queue (handler w)
        ++ map DispatchThunk (List.filter is_session callbacks)
  /\ callback_queue (handler w')
     = callback_queue (handler w)
         ++ map DispatchThunk (List.filter (fun cb => negb (is_session cb)) callbacks)
  /\ completion_queue (handler w') = completion_queue (handler w)
  /\ _running (handler w') = _running (handler w)
  /\ _workers (handler w') = _workers (handler w).
Proof.
  destruct (dispatch_all_queues callbacks w) as (H1 & H2 & H3 & H4 & H5 & _).
  by repeat split.
Qed.

Lemma thread_worker_runnable (raises : invocation -> bool) (cs : list pyobj)
    (q : list work) :
  forall (tail : list work) (log : list invocation),
    runnable raises cs q = true ->
    thread_worker raises cs (q ++ tail) log
    = thread_worker raises cs tail (log ++ calls_of cs q).
Proof.
  induction q as [|item q IH]; intros tail log Hq; simpl.
  - by rewrite app_nil_r.
  - simpl in Hq. apply andb_true_iff in Hq as [Hi Hq].
    unfold calls_of. simpl. fold (calls_of cs q).
    destruct item as [|c self|cb]; simpl in *; [discriminate| |].
    + destruct (cs !! c) as [callback|]; simpl in *; [|discriminate].
      apply negb_true_iff in Hi. rewrite Hi, IH by done.
      by rewrite <- app_assoc.
    + apply negb_true_iff in Hi. rewrite Hi, IH by done.
      by rewrite <- app_assoc.
Qed.

Lemma calls_of_runnable_length (raises : invocation -> bool) (cs : list pyobj)
    (q : list work) :
  runnable raises cs q = true -> length (calls_of cs q) = length q.
Proof.
  induction q as [|item q IH]; [done|]. simpl.
  intros Hq. apply andb_true_iff in Hq as [Hi Hq].
  unfold calls_of. simpl. fold (calls_of cs q).
  destruct (call_of cs item); [|discriminate]. simpl. by rewrite IH.
Qed.

(** X12.  The worker loop is first in, first out: on a queue of items whose
    calls all return, it makes one call per item, in the order of the queue,
    and then waits on the empty queue; when a stop marker follows those items
    it makes the same calls and ends, leaving what is behind the marker on the
    queue. *)
Theorem X12_worker_runs_in_order (raises : invocation -> bool) (cs : list pyobj)
    (q rest : list work) (log : list invocation) :
  runnable raises cs q = true ->
  thread_worker raises cs q log = (Blocked, [], log ++ calls_of cs q)
  /\ thread_worker raises cs (q ++ _STOP :: rest) log
     = (Stopped, rest, log ++ calls_of cs q)
  /\ length (calls_of cs q) = length q.
Proof.
  intros Hq. repeat apply conj.
  - rewrite <- (app_nil_r q) at 1. by rewrite thread_worker_runnable.
  - by rewrite thread_worker_runnable.
  - by eapply calls_of_runnable_length.
Qed.

Lemma X12_worker_runs_in_order_witness :
  let a := {| type := "watch"; func := PyObj 1; args := [PyObj 10] |} in
  let b := {| type := "watch"; func := PyObj 2; args := [] |} in
  let c := {| type := "watch"; func := PyObj 3; args := [] |} in
  thread_worker (fun _ => false) [] [DispatchThunk a; DispatchThunk b; _STOP; DispatchThunk c] []
  = (Stopped, [DispatchThunk c], [Call (PyObj 1) [PyObj 10]; Call (PyObj 2) []]).
Proof.
  cbv zeta.
  exact (proj1 (proj2 (X12_worker_runs_in_order (fun _ => false) []
           [DispatchThunk {| type := "watch"; func := PyObj 1; args := [PyObj 10] |};
            DispatchThunk {| type := "watch"; func := PyObj 2; args := [] |}]
           [DispatchThunk {| type := "watch"; func := PyObj 3; args := [] |}]
           [] eq_refl))).
Defined.

Lemma calls_of_dispatched (cs : list pyobj) (callbacks : list Callback) :
  calls_of cs (map DispatchThunk callbacks) = map dispatched_call callbacks.
Proof.
  unfold calls_of. induction callbacks as [|cb cbs IH]; [done|].
  simpl. f_equal. exact IH.
Qed.

Lemma runnable_dispatched (raises : invocation -> bool) (cs : list pyobj)
    (callbacks : list Callback) :
  Forall (fun cb => raises (dispatched_call cb) = false) callbacks ->
  runnable raises cs (map DispatchThunk callbacks) = true.
Proof.
  induction 1 as [|cb cbs Hcb _ IH]; [done|].
  simpl. unfold dispatched_call in Hcb. by rewrite Hcb, IH.
Qed.

(** X13.  From dispatch to call, per category: when the session queue is
    empty and its worker alive, and none of the dispatched calls raises, the
    session worker calls [func( *args)] for exactly the session callbacks, in
    the order in which they were dispatched, however they were interleaved
    with callbacks of other types; likewise the callback worker for the
    others. *)
Theorem X13_dispatched_calls_in_order (raises : invocation -> bool)
    (callbacks : list Callback) (w : World) :
  Forall (fun cb => raises (dispatched_call cb) = false) callbacks ->
  (session_queue (handler w) = [] ->
   existsb (fun t => alive t && bool_decide (target t = SessionLane))
           (_workers (handler w)) = true ->
   calls (run_lane raises SessionLane (dispatch_all callbacks w))
   = calls w ++ map dispatched_call (List.filter is_session callbacks))
  /\ (callback_queue (handler w) = [] ->
      existsb (fun t => alive t && bool_decide (target t = CallbackLane))
              (_workers (handler w)) = true ->
      calls (run_lane raises CallbackLane (dispatch_all callbacks w))
      = calls w
          ++ map dispatched_call
               (List.filter (fun cb => negb (is_session cb)) callbacks)).
Proof.
  intros Hcbs.
  destruct (dispatch_all_queues callbacks w)
    as (Hs & Hc & _ & _ & Hw & _ & Hcells & Hcalls).
  assert (Hsub : forall p, Forall (fun cb => raises (dispatched_call cb) = false)
                                  (List.filter p callbacks)).
  { intros p. apply Forall_forall. intros cb Hin.
    apply list_elem_of_In, filter_In in Hin as [Hin _].
    rewrite Forall_forall in Hcbs. by apply Hcbs, list_elem_of_In. }
  split; intros Hq Hal; unfold run_lane; rewrite Hw, Hal; simpl.
  - rewrite Hs, Hq, Hcalls. simpl.
    rewrite <- (app_nil_r (map DispatchThunk _)).
    rewrite thread_worker_runnable by (by apply runnable_dispatched).
    simpl. by rewrite calls_of_dispatched.
  - rewrite Hc, Hq, Hcalls. simpl.
    rewrite <- (app_nil_r (map DispatchThunk _)).
    rewrite thread_worker_runnable by (by apply runnable_dispatched).
    simpl. by rewrite calls_of_dispatched.
Qed.

Lemma X13_dispatched_calls_witness :
  let s1 := {| type := "session"; func := PyObj 1; args := [] |} in
  let w1 := {| type := "watch"; func := PyObj 2; args := [] |} in
  let s2 := {| type := "session"; func := PyObj 3; args := [PyObj 9] |} in
  let w := start (World_init (PyObj 0)) in
  calls (run_lane (fun _ => false) SessionLane (dispatch_all [s1; w1; s2] w))
  = [Call (PyObj 1) []; Call (PyObj 3) [PyObj 9]].
Proof.
  cbv zeta.
  refine (proj1 (X13_dispatched_calls_in_order (fun _ => false)
           [ {| type := "session"; func := PyObj 1; args := [] |};
             {| type := "watch"; func := PyObj 2; args := [] |};
             {| type := "session"; func := PyObj 3; args := [PyObj 9] |} ]
           (start (World_init (PyObj 0))) _) eq_refl eq_refl).
  repeat constructor.
Defined.

(** ** A call that raises *)

Lemma queue_of_set_queue (l l' : lane) (q : list work)
    (h : SequentialThreadingHandler) :
  queue_of l' (set_queue l q h) = if decide (l' = l) then q else queue_of l' h.
Proof. by destruct l, l'. Qed.




(** ** Stopping and starting again *)



Lemma drain_runnable (raises : invocation -> bool) (cs : list pyobj) (t : Thread)
    (q : list work) (log : list invocation) :
  alive t = true -> runnable raises cs q = true ->
  drain raises cs t q log = log ++ calls_of cs q.
Proof.
  intros Ha Hq. unfold drain. rewrite Ha, thread_worker_runnable by done.
  reflexivity.
Qed.

(** X16.  [stop] lets the workers finish what was queued before it: when the
    three workers are alive and every queued call returns, then by the time
    [stop] returns each item that was on a queue has been called exactly
    once, nothing else has, and the items of one queue were called in their
    order. *)
Theorem X16_stop_runs_queued_items (raises : invocation -> bool) (self : pyobj)
    (late : lane -> list work) (w : World) :
  reachable raises self w ->
  _running (handler w) = true ->
  Forall (fun t => alive t = true) (_workers (handler w)) ->
  (forall l, runnable raises (cells w) (queue_of l (handler w)) = true) ->
  exists w' new,
    stop raises late w = Some w'
    /\ calls w' = calls w ++ new
    /\ new ≡ₚ calls_of (cells w) (completion_queue (handler w))
              ++ calls_of (cells w) (callback_queue (handler w))
              ++ calls_of (cells w) (session_queue (handler w))
    /\ (forall l, calls_of (cells w) (queue_of l (handler w)) `sublist_of` new).
Proof.
  intros Hreach Hr Hal Hrun. apply reachable_workers in Hreach.
  destruct (workers_of_start_three w Hreach Hr)
    as (t1 & t2 & t3 & Hw & H1 & H2 & H3 & _).
  rewrite Hw in Hal. inversion Hal as [|? ? Ha1 Hal']; subst.
  inversion Hal' as [|? ? Ha2 Hal'']; subst.
  inversion Hal'' as [|? ? Ha3 _]; subst.
  rewrite (stop_running_result raises late w t1 t2 t3) by assumption.
  rewrite !drain_runnable;
    [|done|apply (Hrun CompletionLane)|done|apply (Hrun CallbackLane)
     |done|apply (Hrun SessionLane)].
  eexists. exists (calls_of (cells w) (completion_queue (handler w))
                   ++ calls_of (cells w) (callback_queue (handler w))
                   ++ calls_of (cells w) (session_queue (handler w))).
  split; [reflexivity|]. simpl. split; [by rewrite <- !app_assoc|].
  split; [done|]. intros []; simpl.
  - by apply sublist_inserts_r.
  - by apply sublist_inserts_l, sublist_inserts_r.
  - by apply sublist_inserts_l, sublist_inserts_l.
Qed.

Lemma X16_stop_runs_queued_witness :
  let no_raise := fun _ : invocation => false in
  let s := {| type := "session"; func := PyObj 1; args := [] |} in
  let c := {| type := "watch"; func := PyObj 2; args := [] |} in
  let w := dispatch_all [s; c] (start (World_init (PyObj 0))) in
  exists w' new,
    stop no_raise (fun _ => []) w = Some w'
    /\ calls w' = new
    /\ new ≡ₚ [Call (PyObj 2) []; Call (PyObj 1) []].
Proof.
  cbv zeta.
  assert (Hreach : reachable (fun _ => false) (PyObj 0)
            (dispatch_all [ {| type := "session"; func := PyObj 1; args := [] |};
                            {| type := "watch"; func := PyObj 2; args := [] |} ]
               (start (World_init (PyObj 0))))).
  { unfold dispatch_all. simpl.
    eapply reachable_step; [|apply step_dispatch].
    eapply reachable_step; [|apply step_dispatch].
    eapply reachable_step; [apply reachable_init | apply step_start]. }
  destruct (X16_stop_runs_queued_items (fun _ => false) (PyObj 0) (fun _ => []) _
              Hreach eq_refl) as (w' & new & Hs & Hc & Hp & _).
  { repeat constructor. }
  { by intros []. }
  exists w', new. split; [exact Hs|]. split; [exact Hc|]. exact Hp.
Defined.

(** X17.  After [stop], a [start] begins clean: the three queues are empty,
    the three workers are new threads (numbered on from the threads made so
    far), and a callback dispatched then is the first and only thing its
    worker calls; nothing of what [stop] discarded is called. *)
Theorem X17_restart_is_clean (raises : invocation -> bool) (self : pyobj)
    (late : lane -> list work) (w w' : World) (callback : Callback) :
  reachable raises self w ->
  _running (handler w) = true ->
  stop raises late w = Some w' ->
  let w2 := start w' in
  (forall l, queue_of l (handler w2) = [])
  /\ _running (handler w2) = true
  /\ _workers (handler w2)
     = [ {| tid := spawned w; target := CompletionLane; alive := true |};
         {| tid := S (spawned w); target := CallbackLane; alive := true |};
         {| tid := S (S (spawned w)); target := SessionLane; alive := true |} ]
  /\ calls (run_lane raises (lane_of callback) (dispatch_callback callback w2))
     = calls w' ++ [dispatched_call callback].
Proof.
  intros Hreach Hr Hs. apply reachable_workers in Hreach.
  destruct (workers_of_start_three w Hreach Hr)
    as (t1 & t2 & t3 & Hw & H1 & H2 & H3 & _).
  rewrite (stop_running_result raises late w t1 t2 t3) in Hs by assumption.
  inversion Hs; subst w'; clear Hs. cbv zeta.
  split; [by intros []|]. split; [done|]. split; [done|].
  unfold lane_of, is_session, dispatch_callback, dispatched_call.
  case_bool_decide; unfold run_lane; simpl;
    by destruct (raises (Call (func callback) (args callback))).
Qed.

Lemma X17_restart_witness :
  let no_raise := fun _ : invocation => false in
  let old := {| type := "watch"; func := PyObj 1; args := [] |} in
  let new := {| type := "session"; func := PyObj 2; args := [] |} in
  let w := start (World_init (PyObj 0)) in
  exists w',
    stop no_raise (fun l => [DispatchThunk old]) w = Some w'
    /\ calls w' = []
    /\ calls (run_lane no_raise SessionLane (dispatch_callback new (start w')))
       = calls w' ++ [Call (PyObj 2) []].
Proof.
  cbv zeta.
  assert (Hreach : reachable (fun _ => false) (PyObj 0)
                     (start (World_init (PyObj 0)))).
  { eapply reachable_step; [apply reachable_init | apply step_start]. }
  destruct (stop (fun _ => false)
              (fun _ => [DispatchThunk {| type := "watch"; func := PyObj 1;
                                          args := [] |}])
              (start (World_init (PyObj 0)))) as [w'|] eqn:Hs;
    [|vm_compute in Hs; discriminate].
  exists w'. split; [reflexivity|].
  split; [vm_compute in Hs; by inversion Hs|].
  exact (proj2 (proj2 (proj2
           (X17_restart_is_clean (fun _ => false) (PyObj 0)
              (fun _ => [DispatchThunk {| type := "watch"; func := PyObj 1;
                                          args := [] |}])
              (start (World_init (PyObj 0))) w'
              {| type := "session"; func := PyObj 2; args := [] |}
              Hreach eq_refl Hs)))).
Defined.

(** ** The variables of queued thunks *)

Lemma bound_in_mono (cs cs' : list pyobj) (item : work) :
  cs `prefix_of` cs' -> bound_in cs item -> bound_in cs' item.
Proof.
  intros Hp. apply prefix_length in Hp.
  destruct item; simpl; [done | lia | done].
Qed.

Lemma thread_worker_rest (raises : invocation -> bool) (cs : list pyobj)
    (q : list work) :
  forall log, (thread_worker raises cs q log).1.2 `suffix_of` q.
Proof.
  induction q as [|item q IH]; intros log; simpl; [done|].
  destruct item as [|c self|cb]; simpl.
  - by apply suffix_cons_r.
  - destruct (cs !! c); simpl; [|by apply suffix_cons_r].
    destruct (raises _); simpl; apply suffix_cons_r; [done | apply IH].
  - destruct (raises _); simpl; apply suffix_cons_r; [done | apply IH].
Qed.

Lemma Forall_suffix_of {A : Type} (P : A -> Prop) (l k : list A) :
  l `suffix_of` k -> Forall P k -> Forall P l.
Proof. intros [pre ->]. rewrite Forall_app. tauto. Qed.

Lemma apply_op_bound (o : op) (w : World) :
  (forall l, Forall (bound_in (cells w)) (queue_of l (handler w))) ->
  forall l, Forall (bound_in (cells (apply_op o w))) (queue_of l (handler (apply_op o w))).
Proof.
  intros Hb l.
  assert (Hold : Forall (bound_in (cells (apply_op o w))) (queue_of l (handler w))).
  { eapply Forall_impl; [apply Hb|]. intros item.
    apply bound_in_mono, apply_op_cells. }
  destruct (notifies o) eqn:Ho.
  - destruct (resolution_shape o w Ho) as (f' & E & _ & _). rewrite E in *.
    destruct (link_all_spec (with_future f' w)) as (_ & Hc & Hq & Hcb & Hs & _).
    simpl in Hc, Hq, Hcb, Hs.
    destruct l; simpl in *; [|by rewrite Hcb|by rewrite Hs].
    rewrite Hq. apply Forall_app. split; [done|].
    destruct (_callbacks f') as [|cb cbs] eqn:Ecb; [constructor|].
    apply Forall_replicate. simpl. rewrite Hc.
    destruct (last (cb :: cbs)) eqn:El.
    + rewrite length_app. simpl. lia.
    + by apply last_None in El.
  - destruct o as [v|e|cb|cb]; try discriminate; simpl in *.
    + unfold rawlink in *. destruct (ready (future w)); simpl in *.
      * rewrite bind_cell_fresh in *.
        destruct l; simpl in *; [|done|done].
        apply Forall_app. split; [done|]. constructor; [|constructor].
        simpl. rewrite length_app. simpl. lia.
      * by destruct (negb _).
    + unfold unlink in *. destruct (ready (future w)); [done|].
      by destruct (py_in _ _).
Qed.

Lemma reachable_thunks_bound (raises : invocation -> bool) (self : pyobj)
    (w : World) :
  reachable raises self w ->
  forall l, Forall (bound_in (cells w)) (queue_of l (handler w)).
Proof.
  induction 1 as [|w w' Hreach IH Hstep]; [by intros []|].
  pose proof (IH CompletionLane) as Hq1. pose proof (IH CallbackLane) as Hq2.
  pose proof (IH SessionLane) as Hq3. simpl in Hq1, Hq2, Hq3.
  destruct Hstep as [o w|cb w|w|late w w' Hs|l0 w].
  - by apply apply_op_bound.
  - intros l. unfold dispatch_callback.
    case_bool_decide; destruct l; simpl; try done;
      (apply Forall_app; split; [done|]; by repeat constructor).
  - intros l. unfold start. destruct (_running (handler w)); [apply IH|].
    by destruct l.
  - intros l. destruct (_running (handler w)) eqn:Hr.
    + apply reachable_workers in Hreach.
      destruct (workers_of_start_three w Hreach Hr)
        as (t1 & t2 & t3 & Hw & H1 & H2 & H3 & _).
      rewrite (stop_running_result raises late w t1 t2 t3) in Hs by assumption.
      inversion Hs; subst. by destruct l.
    + unfold stop in Hs. rewrite Hr in Hs. inversion Hs; subst. apply IH.
  - intros l. unfold run_lane. destruct (existsb _ _); [|apply IH].
    pose proof (thread_worker_rest raises (cells w) (queue_of l0 (handler w))
                  (calls w)) as Hsuf.
    destruct (thread_worker _ _ _ _) as [[e rest] log]. simpl in *.
    assert (Hq : queue_of l (set_queue l0 rest (handler w))
                 = if decide (l = l0) then rest else queue_of l (handler w))
      by apply queue_of_set_queue.
    assert (queue_of l (set_workers
              match e with
              | Blocked => _workers (handler w)
              | _ => map (fun t => if bool_decide (target t = l0)
                                   then {| tid := tid t; target := target t;
                                           alive := false |}
                                   else t) (_workers (handler w))
              end (set_queue l0 rest (handler w)))
            = queue_of l (set_queue l0 rest (handler w))) as -> by (by destruct l).
    rewrite Hq. destruct (decide (l = l0)) as [->|]; [|apply IH].
    eapply Forall_suffix_of; [exact Hsuf | apply IH].
Qed.

Lemma thread_worker_died (raises : invocation -> bool) (cs : list pyobj)
    (q : list work) :
  forall log rest log',
    Forall (bound_in cs) q ->
    thread_worker raises cs q log = (Died, rest, log') ->
    exists c, last log' = Some c /\ raises c = true.
Proof.
  induction q as [|item q IH]; intros log rest log' Hb H; simpl in H;
    [discriminate|].
  inversion Hb as [|? ? Hitem Hq]; subst.
  destruct item as [|c self|cb]; simpl in *; [discriminate| |].
  - destruct (lookup_lt_is_Some_2 _ _ Hitem) as [callback E].
    rewrite E in H. simpl in H.
    destruct (raises _) eqn:Er; [|by eapply IH].
    inversion H; subst. eexists. by rewrite last_snoc.
  - destruct (raises _) eqn:Er; [|by eapply IH].
    inversion H; subst. eexists. by rewrite last_snoc.
Qed.

(** X18.  The thunks on the queues of any world the operations can produce
    have their variable bound, so a worker never ends on an unbound name: if
    a worker ends other than by the stop marker, the last call it made
    raised. *)
Theorem X18_worker_ends_only_on_raise (raises : invocation -> bool)
    (self : pyobj) (w : World) (l : lane) :
  reachable raises self w ->
  Forall (bound_in (cells w)) (queue_of l (handler w))
  /\ forall log rest log',
       thread_worker raises (cells w) (queue_of l (handler w)) log
         = (Died, rest, log') ->
       exists c, last log' = Some c /\ raises c = true.
Proof.
  intros Hreach. pose proof (reachable_thunks_bound _ _ _ Hreach l) as Hb.
  split; [done|]. intros log rest log'. by apply thread_worker_died.
Qed.

Lemma X18_worker_ends_witness :
  let w := set (PyObj 9) (rawlink (PyObj 1) (World_init (PyObj 0))) in
  completion_queue (handler w) = [CompletionThunk 0 (PyObj 0)]
  /\ Forall (bound_in (cells w)) (completion_queue (handler w)).
Proof.
  cbv zeta. split; [reflexivity|].
  assert (Hreach : reachable (fun _ => false) (PyObj 0)
            (set (PyObj 9) (rawlink (PyObj 1) (World_init (PyObj 0))))).
  { eapply reachable_step; [|apply (step_op _ (OpSet (PyObj 9)))].
    eapply reachable_step; [|apply (step_op _ (OpRawlink (PyObj 1)))].
    apply reachable_init. }
  exact (proj1 (X18_worker_ends_only_on_raise (fun _ => false) (PyObj 0) _
                  CompletionLane Hreach)).
Defined.
